(** * mona-date: the English date grammar of [src/index.js]

    The grammar is written with the [mona] parser combinators and asks
    [moment] for every calendar question.  Both libraries live outside the
    repository, so the first two modules give executable models of the part
    of their interface that [index.js] calls; the grammar itself is then
    transcribed function by function.

    Conventions of the embedding:
    - a character stream is a [list ascii] (the input restricted to ASCII);
      a parser maps the remaining stream to [Some (value, rest)] or to
      [None]; mona's error messages and positions are not kept;
    - JavaScript numbers are unbounded integers ([Z]); the range of [Date]
      and the precision of doubles are not modelled;
    - a date is the tuple of its local wall-clock fields; time zones and
      daylight-saving shifts are not modelled;
    - the clock is read once: every [moment()] of one [parseDate] call sees
      the same instant, called [clock] below. *)

From Stdlib Require Import ZArith List Ascii String Bool Lia.
From Stdlib Require Import Decimal DecimalString DecimalFacts DecimalPos DecimalN.
Import ListNotations.

#[local] Open Scope Z_scope.

(** ** Character streams *)

Definition Stream : Type := list ascii.

Definition str (s : string) : Stream := list_ascii_of_string s.

Definition isDigit (c : ascii) : bool :=
  let n := nat_of_ascii c in (Nat.leb 48 n && Nat.leb n 57)%bool.

Definition digitVal (c : ascii) : Z := Z.of_nat (nat_of_ascii c) - 48.

(** [parseInt(s, 10)] on a string made of decimal digits. *)
Definition parseInt (ds : Stream) : Z :=
  fold_left (fun acc c => 10 * acc + digitVal c) ds 0.

(** The characters of [oneOf(' \t\n\r')]. *)
Definition isSpace (c : ascii) : bool :=
  match nat_of_ascii c with
  | 32%nat | 9%nat | 10%nat | 13%nat => true
  | _ => false
  end.

Fixpoint span (f : ascii -> bool) (s : Stream) : Stream * Stream :=
  match s with
  | [] => ([], [])
  | c :: s' =>
      if f c then let (a, b) := span f s' in (c :: a, b) else ([], s)
  end.

Fixpoint stripPrefix (lit s : Stream) : option Stream :=
  match lit, s with
  | [], _ => Some s
  | a :: lit', b :: s' => if Ascii.eqb a b then stripPrefix lit' s' else None
  | _ :: _, [] => None
  end.

(** The canonical decimal numeral of a non-negative integer. *)
Definition decimal (n : Z) : string :=
  NilEmpty.string_of_uint (N.to_uint (Z.to_N n)).

(** ** Model of the [mona] combinators used by the grammar *)

Module Mona.

Definition Parser (A : Type) : Type := Stream -> option (A * Stream).

Definition value {A} (a : A) : Parser A := fun s => Some (a, s).

Definition fail {A} : Parser A := fun _ => None.

(** [sequence(s => { var x = s(p); ... return k })]: the steps run in
    order, the first failing step fails the whole sequence. *)
Definition bind {A B} (p : Parser A) (k : A -> Parser B) : Parser B :=
  fun s => match p s with
           | Some (a, s') => k a s'
           | None => None
           end.

(** [and(p, q)]: both in order, the value of the last one. *)
Definition and_ {A B} (p : Parser A) (q : Parser B) : Parser B :=
  bind p (fun _ => q).

(** [followedBy(p, q)]: both in order, the value of the first one. *)
Definition followedBy {A B} (p : Parser A) (q : Parser B) : Parser A :=
  bind p (fun a => bind q (fun _ => value a)).

(** [or(p1, ..., pn)]: the first alternative that succeeds, each one
    tried on the same stream. *)
Fixpoint or {A} (ps : list (Parser A)) : Parser A :=
  fun s => match ps with
           | [] => None
           | p :: ps' => match p s with
                         | Some r => Some r
                         | None => or ps' s
                         end
           end.

(** [maybe(p)]: [p], or [undefined] without consuming anything. *)
Definition maybe {A} (p : Parser A) : Parser (option A) :=
  fun s => match p s with
           | Some (a, s') => Some (Some a, s')
           | None => Some (None, s)
           end.

Definition eof : Parser unit :=
  fun s => match s with [] => Some (tt, []) | _ :: _ => None end.

Definition label {A} (p : Parser A) (name : String.string) : Parser A := p.

(** [string(lit)]: exactly the characters of [lit], case-sensitive. *)
Definition string (lit : String.string) : Parser String.string :=
  fun s => match stripPrefix (str lit) s with
           | Some s' => Some (lit, s')
           | None => None
           end.

(** [spaces()]: one or more whitespace characters, as one space. *)
Definition spaces : Parser String.string :=
  fun s => match span isSpace s with
           | ([], _) => None
           | (_ :: _, s') => Some (" "%string, s')
           end.

(** [text(noneOf(' '))]: the longest, possibly empty, run of characters
    other than the space character. *)
Definition textNoneOfSpace : Parser Stream :=
  fun s => Some (span (fun c => negb (Ascii.eqb c " ")) s).

(** [natural()]: one or more decimal digits, read by [parseInt]. *)
Definition natural : Parser Z :=
  fun s => match span isDigit s with
           | ([], _) => None
           | (ds, s') => Some (parseInt ds, s')
           end.

(** [integer()]: an optional sign followed by [natural()]. *)
Definition integer : Parser Z :=
  bind (maybe (or [string "+"; string "-"])) (fun sign =>
  bind natural (fun num =>
  value (num * (match sign with
                | Some "-"%string => -1
                | _ => 1
                end)))).

(** [parse(parser, string)]: the value, or no value when mona throws. *)
Definition parse {A} (p : Parser A) (s : String.string) : option A :=
  match p (str s) with
  | Some (a, _) => Some a
  | None => None
  end.

End Mona.

Declare Scope parser_scope.
Delimit Scope parser_scope with parser.
Notation "x <- p ;; k" := (Mona.bind p (fun x => k))
  (at level 61, p at next level, right associativity) : parser_scope.
Notation "p ;; k" := (Mona.bind p (fun _ => k))
  (at level 61, right associativity) : parser_scope.

(** ** Model of the [moment] calendar library

    Only the calls made by [index.js] are modelled: [moment()],
    [moment(date)], [moment([y, m, d])], [moment(text, format)] for the
    formats ['MMM'], ['M'] and ['YYYY'] in moment's default (forgiving)
    parsing mode and English locale, [isValid], [startOf('day')],
    [subtract(unit, amount)], [year()], [month()] and [toDate()]. *)

Module Moment.

(** The local wall-clock fields of a JavaScript [Date]; [ms] counts the
    milliseconds elapsed since midnight. *)
Record Date : Type := mkDate { year : Z; month : Z; date : Z; ms : Z }.

Record t : Type := mk { toDate : Date; isValid : bool }.

Definition isLeapYear (y : Z) : bool :=
  ((y mod 4 =? 0) && negb (y mod 100 =? 0)) || (y mod 400 =? 0).

Definition daysInMonth (y m : Z) : Z :=
  let modMonth := m mod 12 in
  let y' := y + (m - modMonth) / 12 in
  if modMonth =? 1
  then (if isLeapYear y' then 29 else 28)
  else 31 - (modMonth mod 7) mod 2.

(** [moment(date)], and [moment()] when given the clock. *)
Definition ofDate (d : Date) : t := mk d true.

(** [moment([y, m, d])]: midnight of that day; the overflow check marks
    an impossible month or day of month as invalid. *)
Definition ofArray (y m d : Z) : t :=
  mk (mkDate y m d 0)
     ((0 <=? m) && (m <=? 11) && (1 <=? d) && (d <=? daysInMonth y m)).

Definition startOfDay (m : t) : t :=
  let d := toDate m in mk (mkDate (year d) (month d) (date d) 0) (isValid m).

Definition nextDay (d : Date) : Date :=
  if date d <? daysInMonth (year d) (month d)
  then mkDate (year d) (month d) (date d + 1) (ms d)
  else if month d <? 11
       then mkDate (year d) (month d + 1) 1 (ms d)
       else mkDate (year d + 1) 0 1 (ms d).

Definition prevDay (d : Date) : Date :=
  if 1 <? date d
  then mkDate (year d) (month d) (date d - 1) (ms d)
  else if 0 <? month d
       then mkDate (year d) (month d - 1)
                   (daysInMonth (year d) (month d - 1)) (ms d)
       else mkDate (year d - 1) 11 31 (ms d).

(** [setDate(getDate() + k)]: the day [k] days later (earlier when [k]
    is negative). *)
Definition addDays (k : Z) (d : Date) : Date :=
  match k with
  | Z0 => d
  | Zpos p => Pos.iter nextDay d p
  | Zneg p => Pos.iter prevDay d p
  end.

(** [setMonth(mom, month + k)]: the day of month is clamped to the length
    of the target month. *)
Definition addMonths (k : Z) (d : Date) : Date :=
  if k =? 0 then d
  else
    let value := month d + k in
    let dayOfMonth := Z.min (date d) (daysInMonth (year d) value) in
    mkDate (year d + value / 12) (value mod 12) dayOfMonth (ms d).

(** [subtract(unit, amount)] for the unit names the grammar produces. *)
Definition subtract (unit : string) (amount : Z) (m : t) : t :=
  let d := toDate m in
  let d' :=
    if String.eqb unit "day" then addDays (- amount) d
    else if String.eqb unit "week" then addDays (- (7 * amount)) d
    else if String.eqb unit "month" then addMonths (- amount) d
    else if String.eqb unit "year" then addMonths (- (12 * amount)) d
    else d in
  mk d' (isValid m).

(** The getters [year()] and [month()]. *)
Definition getYear (m : t) : Z := year (toDate m).
Definition getMonth (m : t) : Z := month (toDate m).

(** *** Forgiving parsing of a text against one format token *)

Inductive Format : Type := MMM | M | YYYY.

Definition lower (c : ascii) : ascii :=
  let n := nat_of_ascii c in
  if (Nat.leb 65 n && Nat.leb n 90)%bool then ascii_of_nat (n + 32) else c.

Definition isLetter (c : ascii) : bool :=
  let n := nat_of_ascii (lower c) in (Nat.leb 97 n && Nat.leb n 122)%bool.

(** The class ['a-z] of moment's word pattern, under the [i] flag. *)
Definition isWordChar (c : ascii) : bool :=
  (isLetter c || Ascii.eqb c "'")%bool.

(** Leftmost match of the word pattern [[0-9]*['a-z]+]. *)
Fixpoint findWord (s : Stream) : option Stream :=
  match s with
  | [] => None
  | _ :: s' =>
      let (ds, r) := span isDigit s in
      match fst (span isWordChar r) with
      | [] => findWord s'
      | w => Some (ds ++ w)
      end
  end.

(** Leftmost match of [\d{1,n}]. *)
Fixpoint findDigits (n : nat) (s : Stream) : option Stream :=
  match s with
  | [] => None
  | c :: s' =>
      if isDigit c then Some (firstn n (fst (span isDigit s)))
      else findDigits n s'
  end.

Definition months : list string :=
  ["January"; "February"; "March"; "April"; "May"; "June"; "July";
   "August"; "September"; "October"; "November"; "December"]%string.

Definition monthsShort : list string :=
  ["Jan"; "Feb"; "Mar"; "Apr"; "May"; "Jun"; "Jul";
   "Aug"; "Sep"; "Oct"; "Nov"; "Dec"]%string.

(** [new RegExp('^' + name, 'i').test(w)] *)
Definition startsWithCI (name : string) (w : Stream) : bool :=
  match stripPrefix (map lower (str name)) (map lower w) with
  | Some _ => true
  | None => false
  end.

(** [monthsParse]: the first month whose long or short name starts the
    word, letter case ignored. *)
Fixpoint monthsParseFrom (i : Z) (names : list (string * string))
         (w : Stream) : option Z :=
  match names with
  | [] => None
  | (long, short) :: names' =>
      if (startsWithCI long w || startsWithCI short w)%bool then Some i
      else monthsParseFrom (i + 1) names' w
  end.

Definition monthsParse (w : Stream) : option Z :=
  monthsParseFrom 0 (combine months monthsShort) w.

Definition parseTwoDigitYear (ds : Stream) : Z :=
  parseInt ds + (if 68 <? parseInt ds then 1900 else 2000).

Definition invalid (clock : Date) : t := mk clock false.

(** [moment(text, format)]: the token's pattern is searched anywhere in
    the text and input around the match is ignored; fields the format
    does not set default to the current year (when the year is missing),
    January and the first of the month. *)
Definition ofString (clock : Date) (text : Stream) (f : Format) : t :=
  match f with
  | MMM =>
      match findWord text with
      | Some w =>
          match monthsParse w with
          | Some i => mk (mkDate (year clock) i 1 0) true
          | None => invalid clock
          end
      | None => invalid clock
      end
  | M =>
      match findDigits 2 text with
      | Some ds =>
          let i := parseInt ds - 1 in
          mk (mkDate (year clock) i 1 0) ((0 <=? i) && (i <=? 11))
      | None => invalid clock
      end
  | YYYY =>
      match findDigits 4 text with
      | Some ds =>
          let y := if Nat.eqb (List.length ds) 2
                   then parseTwoDigitYear ds else parseInt ds in
          mk (mkDate y 0 1 0) true
      | None => invalid clock
      end
  end.

End Moment.

(** ** The date grammar of [index.js] *)

Section Grammar.

Import Mona.
#[local] Open Scope parser_scope.

(** The instant every [moment()] call returns. *)
Variable clock : Moment.Date.

Definition today : Moment.Date :=
  Moment.toDate (Moment.startOfDay (Moment.ofDate clock)).

(** The [for] loop of [momentParser]: the first format under which the
    text is a valid moment decides. *)
Fixpoint firstFormat (unit : Moment.t -> Z) (text : Stream)
         (formats : list Moment.Format) : Parser Z :=
  match formats with
  | [] => fail
  | f :: formats' =>
      let formatted := Moment.ofString clock text f in
      if Moment.isValid formatted then value (unit formatted)
      else firstFormat unit text formats'
  end.

Definition momentParser (unit : Moment.t -> Z) (name : String.string)
           (formats : list Moment.Format) : Parser Z :=
  label (text <- textNoneOfSpace ;; firstFormat unit text formats) name.

Definition month : Parser Z :=
  momentParser Moment.getMonth "month" [Moment.MMM; Moment.M].

Definition day : Parser Z :=
  label (dayNum <- integer ;;
         if (1 <=? dayNum) && (dayNum <=? 31) then value dayNum else fail)
        "day".

Definition year : Parser Z :=
  momentParser Moment.getYear "year" [Moment.YYYY].

Definition now : Parser Moment.Date :=
  and_ (or [string "today"; string "now"]) (value today).

Definition yesterday : Parser Moment.Date :=
  and_ (string "yesterday")
       (value (Moment.toDate
                 (Moment.startOfDay
                    (Moment.subtract "day" 1 (Moment.ofDate clock))))).

Definition interval : Parser Z :=
  or [integer; and_ (string "the") (value 1)].

Definition intervalUnit : Parser String.string :=
  unit <- or [string "day"; string "week"; string "month"; string "year"] ;;
  maybe (string "s") ;;
  value unit.

(** [referenceDate] and [relativeDate] call [englishDateParser()] back;
    they take it as an argument and the knot is tied below. *)
Definition referenceDate (englishDateParser : Parser Moment.Date)
  : Parser Moment.Date :=
  let ago := and_ (string "ago") (value today) in
  or [ago;
      and_ (or [string "from"; string "before"; string "until"])
           (and_ spaces englishDateParser)].

Definition relativeDate (englishDateParser : Parser Moment.Date)
  : Parser Moment.Date :=
  _interval <- or [interval; value 1] ;;
  maybe spaces ;;
  _intervalUnit <- intervalUnit ;;
  spaces ;;
  reference <- referenceDate englishDateParser ;;
  value (Moment.toDate
           (Moment.subtract _intervalUnit _interval
                            (Moment.ofDate reference))).

Definition monthAndYear : Parser Moment.Date :=
  _month <- month ;;
  spaces ;;
  _year <- year ;;
  let mo := Moment.ofArray _year _month 1 in
  if Moment.isValid mo then value (Moment.toDate mo) else fail.

Definition monthAndDay : Parser Moment.Date :=
  _month <- month ;;
  spaces ;;
  _day <- day ;;
  let mo := Moment.ofArray (Moment.getYear (Moment.ofDate clock))
                           _month _day in
  if Moment.isValid mo then value (Moment.toDate mo) else fail.

Definition fullDate : Parser Moment.Date :=
  _month <- month ;;
  spaces ;;
  _day <- day ;;
  maybe (string ",") ;;
  maybe spaces ;;
  _year <- year ;;
  let mo := Moment.ofArray _year _month _day in
  if Moment.isValid mo then value (Moment.toDate mo) else fail.

Definition localeDate : Parser Moment.Date :=
  or [fullDate; monthAndDay; monthAndYear].

(** The alternation at the heart of [englishDateParser]. *)
Definition dateAlternatives (englishDateParser : Parser Moment.Date)
  : list (Parser Moment.Date) :=
  [localeDate; relativeDate englishDateParser; now; yesterday].

(** [englishDateParser()] builds its parser anew at every call; a
    reference clause calls it on what is left of the input.  [fuel]
    bounds the nesting of reference clauses. *)
Fixpoint englishDateParser (fuel : nat) : Parser Moment.Date :=
  match fuel with
  | O => fail
  | S fuel' =>
      followedBy
        (followedBy
           (and_ (maybe spaces)
                 (or (dateAlternatives (englishDateParser fuel'))))
           (maybe spaces))
        eof
  end.

(** Every reference clause consumes input first, so the length of the
    input bounds the nesting: [dateParser] is [englishDateParser()] with
    enough fuel (see [englishDateParser_fuel] and [dateParser_unfold]). *)
Definition dateParser : Parser Moment.Date :=
  fun s => englishDateParser (S (List.length s)) s.

Definition parseDate (s : String.string) : option Moment.Date :=
  parse dateParser s.

End Grammar.

(** ** Vocabulary of the statements *)

Definition skipSpaces (s : Stream) : Stream := snd (span isSpace s).

(** A stream that is empty or starts with a character outside [f]. *)
Definition stopsAt (f : ascii -> bool) (s : Stream) : Prop :=
  match s with
  | [] => True
  | c :: _ => f c = false
  end.

(** How much input a parser may leave. *)
Definition shrinks {A} (p : Mona.Parser A) : Prop :=
  forall s a r, p s = Some (a, r) -> (List.length r <= List.length s)%nat.

Definition consumes {A} (p : Mona.Parser A) : Prop :=
  forall s a r, p s = Some (a, r) -> (List.length r < List.length s)%nat.

(** One unfolding of [englishDateParser()], the reference clause being
    handed [rec]. *)
Definition dateParserBody (clock : Moment.Date)
           (rec : Mona.Parser Moment.Date)
  : Mona.Parser Moment.Date :=
  Mona.followedBy
    (Mona.followedBy
       (Mona.and_ (Mona.maybe Mona.spaces)
                  (Mona.or (dateAlternatives clock rec)))
       (Mona.maybe Mona.spaces))
    Mona.eof.

(** The unit words of [intervalUnit] and the prepositions of
    [referenceDate]. *)
Definition unitWords : list string := ["day"; "week"; "month"; "year"]%string.

Definition prepositions : list string := ["from"; "before"; "until"]%string.

(** A clock reading for the closed examples: 15 March 2024, 14:30. *)
Definition sampleClock : Moment.Date := Moment.mkDate 2024 2 15 52200000.




(** A unit word, with the plural [s] when [pl] holds. *)
Definition plural (u : string) (pl : bool) : string :=
  if pl then (u ++ "s")%string else u.

(** * Properties *)

(** ** Streams *)

Lemma str_app (a b : string) : str (a ++ b) = str a ++ str b.
Proof.
  unfold str. induction a as [|c a IH]; simpl; [reflexivity|].
  now rewrite IH.
Qed.

Lemma str_length (s : string) : List.length (str s) = String.length s.
Proof.
  unfold str. induction s as [|c s IH]; simpl; [reflexivity|].
  now rewrite IH.
Qed.

Lemma span_app (f : ascii -> bool) (s : Stream) :
  fst (span f s) ++ snd (span f s) = s.
Proof.
  induction s as [|c s IH]; simpl; [reflexivity|].
  destruct (f c); [|reflexivity].
  destruct (span f s) as [a b]; simpl in *. now rewrite IH.
Qed.

Lemma span_length (f : ascii -> bool) (s : Stream) :
  (List.length (snd (span f s)) <= List.length s)%nat.
Proof.
  rewrite <- (span_app f s) at 2. rewrite length_app. lia.
Qed.

Lemma span_all (f : ascii -> bool) (a r : Stream) :
  forallb f a = true -> stopsAt f r -> span f (a ++ r) = (a, r).
Proof.
  intros Ha Hr. induction a as [|c a IH]; simpl in *.
  - destruct r as [|c r]; [reflexivity|]. simpl in *. now rewrite Hr.
  - apply andb_true_iff in Ha as [Hc Ha]. now rewrite Hc, IH.
Qed.

Lemma span_stops (f : ascii -> bool) (s : Stream) :
  stopsAt f s -> span f s = ([], s).
Proof.
  intros H. exact (span_all f [] s eq_refl H).
Qed.

Lemma skipSpaces_stops (s : Stream) :
  stopsAt isSpace s -> skipSpaces s = s.
Proof.
  intros H. unfold skipSpaces. now rewrite span_stops.
Qed.

Lemma stripPrefix_app (lit r : Stream) : stripPrefix lit (lit ++ r) = Some r.
Proof.
  induction lit as [|c lit IH]; simpl; [reflexivity|].
  now rewrite Ascii.eqb_refl.
Qed.

Lemma stripPrefix_inv (lit s r : Stream) :
  stripPrefix lit s = Some r -> s = lit ++ r.
Proof.
  revert s. induction lit as [|c lit IH]; intros s H; simpl in *.
  - now inversion H.
  - destruct s as [|b s]; [discriminate|].
    destruct (Ascii.eqb c b) eqn:E; [|discriminate].
    apply Ascii.eqb_eq in E. subst b. now rewrite (IH s H).
Qed.

(** ** How much input the combinators consume *)

Lemma consumes_shrinks {A} (p : Mona.Parser A) : consumes p -> shrinks p.
Proof. intros H s a r E. specialize (H s a r E). lia. Qed.

Lemma shrinks_value {A} (a : A) : shrinks (Mona.value a).
Proof. intros s b r [= _ <-]. lia. Qed.

Lemma shrinks_bind {A B} (p : Mona.Parser A) (k : A -> Mona.Parser B) :
  shrinks p -> (forall a, shrinks (k a)) -> shrinks (Mona.bind p k).
Proof.
  intros Hp Hk s b r. unfold Mona.bind.
  destruct (p s) as [[a s1]|] eqn:E; [|discriminate].
  intros E2. specialize (Hp _ _ _ E). specialize (Hk _ _ _ _ E2). lia.
Qed.

Lemma consumes_bind {A B} (p : Mona.Parser A) (k : A -> Mona.Parser B) :
  consumes p -> (forall a, shrinks (k a)) -> consumes (Mona.bind p k).
Proof.
  intros Hp Hk s b r. unfold Mona.bind.
  destruct (p s) as [[a s1]|] eqn:E; [|discriminate].
  intros E2. specialize (Hp _ _ _ E). specialize (Hk _ _ _ _ E2). lia.
Qed.

Lemma shrinks_or {A} (ps : list (Mona.Parser A)) :
  Forall shrinks ps -> shrinks (Mona.or ps).
Proof.
  induction 1 as [|p ps Hp _ IH]; intros s a r; simpl; [discriminate|].
  destruct (p s) as [[a' r']|] eqn:E.
  - intros [= <- <-]. exact (Hp _ _ _ E).
  - apply IH.
Qed.

Lemma consumes_or {A} (ps : list (Mona.Parser A)) :
  Forall consumes ps -> consumes (Mona.or ps).
Proof.
  induction 1 as [|p ps Hp _ IH]; intros s a r; simpl; [discriminate|].
  destruct (p s) as [[a' r']|] eqn:E.
  - intros [= <- <-]. exact (Hp _ _ _ E).
  - apply IH.
Qed.

Lemma shrinks_maybe {A} (p : Mona.Parser A) :
  shrinks p -> shrinks (Mona.maybe p).
Proof.
  intros Hp s a r. unfold Mona.maybe.
  destruct (p s) as [[a' r']|] eqn:E; intros [= _ <-];
    [exact (Hp _ _ _ E) | lia].
Qed.

Lemma string_inv (lit : string) (s : Stream) v r :
  Mona.string lit s = Some (v, r) <-> v = lit /\ s = str lit ++ r.
Proof.
  unfold Mona.string. split.
  - destruct (stripPrefix (str lit) s) as [s'|] eqn:E; [|discriminate].
    intros [= <- <-]. split; [reflexivity|]. now apply stripPrefix_inv.
  - intros [-> ->]. now rewrite stripPrefix_app.
Qed.

Lemma shrinks_string (lit : string) : shrinks (Mona.string lit).
Proof.
  intros s v r E. apply string_inv in E as [_ ->]. rewrite length_app. lia.
Qed.

Lemma consumes_string (lit : string) :
  lit <> ""%string -> consumes (Mona.string lit).
Proof.
  intros Hl s v r E. apply string_inv in E as [_ ->]. rewrite length_app.
  destruct lit; [congruence|]. simpl. lia.
Qed.

Lemma consumes_spaces : consumes Mona.spaces.
Proof.
  intros s v r. unfold Mona.spaces.
  pose proof (span_app isSpace s) as E.
  destruct (span isSpace s) as [[|c a] b]; [discriminate|].
  intros [= _ <-]. simpl in E. rewrite <- E. simpl. rewrite length_app. lia.
Qed.

Lemma shrinks_natural : shrinks Mona.natural.
Proof.
  intros s v r. unfold Mona.natural.
  pose proof (span_length isDigit s) as L.
  destruct (span isDigit s) as [[|c a] b]; [discriminate|].
  intros [= _ <-]. exact L.
Qed.

Lemma shrinks_integer : shrinks Mona.integer.
Proof.
  unfold Mona.integer. apply shrinks_bind.
  - apply shrinks_maybe, shrinks_or.
    repeat constructor; apply shrinks_string.
  - intros sign. apply shrinks_bind; [apply shrinks_natural|].
    intros num. apply shrinks_value.
Qed.

Section Fuel.

Variable clock : Moment.Date.

Lemma shrinks_interval : shrinks (interval).
Proof.
  unfold interval. apply shrinks_or. repeat constructor.
  - apply shrinks_integer.
  - apply shrinks_bind; [apply shrinks_string|].
    intros _. apply shrinks_value.
Qed.

Lemma shrinks_intervalUnit : shrinks intervalUnit.
Proof.
  unfold intervalUnit. apply shrinks_bind.
  - apply shrinks_or. repeat constructor; apply shrinks_string.
  - intros u. apply shrinks_bind.
    + apply shrinks_maybe, shrinks_string.
    + intros _. apply shrinks_value.
Qed.

(** The reference clause calls the date parser on strictly less input. *)
Lemma referenceDate_ext (rec1 rec2 : Mona.Parser Moment.Date) (s : Stream) :
  (forall r, (List.length r < List.length s)%nat -> rec1 r = rec2 r) ->
  referenceDate clock rec1 s = referenceDate clock rec2 s.
Proof.
  intros H. unfold referenceDate. cbv [Mona.or Mona.and_ Mona.bind].
  destruct (Mona.string "ago" s) as [[a s0]|]; [reflexivity|].
  destruct (Mona.string "from" s) as [[p s1]|] eqn:E1;
    [|destruct (Mona.string "before" s) as [[p s1]|] eqn:E2;
      [|destruct (Mona.string "until" s) as [[p s1]|] eqn:E3;
        [|reflexivity]]].
  all: destruct (Mona.spaces s1) as [[w s2]|] eqn:E; [|reflexivity].
  all: rewrite H; [reflexivity|].
  all: apply consumes_spaces in E.
  - apply shrinks_string in E1. lia.
  - apply shrinks_string in E2. lia.
  - apply shrinks_string in E3. lia.
Qed.

Lemma relativeDate_ext (rec1 rec2 : Mona.Parser Moment.Date) (s : Stream) :
  (forall r, (List.length r < List.length s)%nat -> rec1 r = rec2 r) ->
  relativeDate clock rec1 s = relativeDate clock rec2 s.
Proof.
  intros H. unfold relativeDate. unfold Mona.bind.
  destruct (Mona.or [interval; Mona.value 1] s) as [[n s1]|] eqn:E1;
    [|reflexivity].
  destruct (Mona.maybe Mona.spaces s1) as [[w s2]|] eqn:E2; [|reflexivity].
  destruct (intervalUnit s2) as [[u s3]|] eqn:E3; [|reflexivity].
  destruct (Mona.spaces s3) as [[w' s4]|] eqn:E4; [|reflexivity].
  rewrite (referenceDate_ext rec1 rec2); [reflexivity|].
  intros r Hr. apply H.
  assert (shrinks (Mona.or [interval; Mona.value 1])) as H1.
  { apply shrinks_or. repeat constructor;
      [apply shrinks_interval | apply shrinks_value]. }
  apply H1 in E1.
  apply (shrinks_maybe _ (consumes_shrinks _ consumes_spaces)) in E2.
  apply shrinks_intervalUnit in E3.
  apply consumes_spaces in E4. lia.
Qed.

Lemma dateParserBody_ext (rec1 rec2 : Mona.Parser Moment.Date) (s : Stream) :
  (forall r, (List.length r < List.length s)%nat -> rec1 r = rec2 r) ->
  dateParserBody clock rec1 s = dateParserBody clock rec2 s.
Proof.
  intros H. unfold dateParserBody, Mona.followedBy, Mona.and_.
  cbv [Mona.bind].
  destruct (Mona.maybe Mona.spaces s) as [[w s1]|] eqn:E1; [|reflexivity].
  unfold dateAlternatives. cbn [Mona.or].
  rewrite (relativeDate_ext rec1 rec2); [reflexivity|].
  intros r Hr. apply H.
  apply (shrinks_maybe _ (consumes_shrinks _ consumes_spaces)) in E1. lia.
Qed.

Lemma englishDateParser_fuel_any (n : nat) :
  forall (m : nat) (s : Stream),
    (List.length s < n)%nat -> (List.length s < m)%nat ->
    englishDateParser clock n s = englishDateParser clock m s.
Proof.
  induction n as [|n IH]; intros m s Hn Hm; [lia|].
  destruct m as [|m]; [lia|].
  change (dateParserBody clock (englishDateParser clock n) s =
          dateParserBody clock (englishDateParser clock m) s).
  apply dateParserBody_ext. intros r Hr. apply IH; lia.
Qed.

(** Fuel beyond the length of the input changes nothing. *)
Lemma englishDateParser_fuel (n : nat) (s : Stream) :
  (List.length s < n)%nat ->
  englishDateParser clock n s = dateParser clock s.
Proof.
  intros Hn. unfold dateParser. apply englishDateParser_fuel_any; lia.
Qed.

(** [dateParser] satisfies the recursive definition of
    [englishDateParser()] in [index.js]. *)
Lemma dateParser_unfold (s : Stream) :
  dateParser clock s = dateParserBody clock (dateParser clock) s.
Proof.
  unfold dateParser at 1.
  change (dateParserBody clock (englishDateParser clock (List.length s)) s =
          dateParserBody clock (dateParser clock) s).
  apply dateParserBody_ext. intros r Hr.
  now apply englishDateParser_fuel.
Qed.

End Fuel.

(** ** Decimal numerals *)

Lemma uint_digits (u : uint) :
  forallb isDigit (str (NilEmpty.string_of_uint u)) = true.
Proof. induction u; simpl; auto. Qed.

Lemma parseInt_uint (u : uint) (acc : Z) :
  fold_left (fun a c => 10 * a + digitVal c)
            (str (NilEmpty.string_of_uint u)) acc
  = acc * Z.of_N (10 ^ Unsigned.usize u) + Z.of_N (Unsigned.of_lu (rev u)).
Proof.
  revert acc. induction u; intros acc.
  1: { cbn. lia. }
  all: cbn [NilEmpty.string_of_uint str list_ascii_of_string fold_left];
    fold (str (NilEmpty.string_of_uint u)); rewrite IHu;
    unfold rev at 2; cbn [revapp]; rewrite Unsigned.of_lu_revapp;
    cbn [Unsigned.usize Unsigned.of_lu]; rewrite N.pow_succ_r';
    generalize (10 ^ Unsigned.usize u)%N (Unsigned.of_lu (rev u));
    intros P L.
  all: match goal with |- context [digitVal ?c] => let v := eval vm_compute in (digitVal c) in change (digitVal c) with v end.
  all: rewrite ?N2Z.inj_add, ?N2Z.inj_mul;
    generalize (Z.of_N P) (Z.of_N L); intros p l;
    repeat match goal with
           | |- context [Z.of_N ?k] =>
               let v := eval vm_compute in (Z.of_N k) in
               change (Z.of_N k) with v
           end; ring.
Qed.

Lemma decimal_digits (n : Z) : forallb isDigit (str (decimal n)) = true.
Proof. apply uint_digits. Qed.

Lemma parseInt_decimal (n : Z) : 0 <= n -> parseInt (str (decimal n)) = n.
Proof.
  intros Hn. unfold parseInt, decimal. rewrite parseInt_uint.
  rewrite <- Unsigned.of_uint_alt.
  change (Pos.of_uint (N.to_uint (Z.to_N n)))
    with (N.of_uint (N.to_uint (Z.to_N n))).
  rewrite DecimalN.Unsigned.of_to. lia.
Qed.

Lemma decimal_cons (n : Z) :
  exists c ds, str (decimal n) = c :: ds /\ isDigit c = true.
Proof.
  pose proof (decimal_digits n) as H.
  destruct (str (decimal n)) as [|c ds] eqn:E.
  - exfalso. unfold decimal in E.
    destruct (Z.to_N n) as [|p]; [discriminate|].
    simpl in E. pose proof (Unsigned.to_uint_nonnil p) as Hp.
    destruct (Pos.to_uint p); try discriminate. now apply Hp.
  - exists c, ds. simpl in H. apply andb_true_iff in H. tauto.
Qed.

(** ** Stepping the primitive parsers over a known prefix *)

Lemma digit_not_space (c : ascii) : isDigit c = true -> isSpace c = false.
Proof.
  destruct c as [[] [] [] [] [] [] [] []]; try discriminate; reflexivity.
Qed.

Lemma digit_not_blank (c : ascii) :
  isDigit c = true -> negb (Ascii.eqb c " ") = true.
Proof.
  destruct c as [[] [] [] [] [] [] [] []]; try discriminate; reflexivity.
Qed.

Lemma digit_not_sign (c : ascii) :
  isDigit c = true -> Ascii.eqb "+" c = false /\ Ascii.eqb "-" c = false.
Proof.
  destruct c as [[] [] [] [] [] [] [] []]; try discriminate; now split.
Qed.

Lemma digit_not_letter (c : ascii) :
  isDigit c = true -> Moment.isWordChar c = false.
Proof.
  destruct c as [[] [] [] [] [] [] [] []]; try discriminate; reflexivity.
Qed.

Lemma forallb_impl (f g : ascii -> bool) (s : Stream) :
  (forall c, f c = true -> g c = true) ->
  forallb f s = true -> forallb g s = true.
Proof.
  intros H. induction s as [|c s IH]; simpl; [reflexivity|].
  intros E. apply andb_true_iff in E as [E1 E2].
  now rewrite (H c E1), IH.
Qed.

Lemma numeral_stops (f : ascii -> bool) (n : Z) (r : Stream) :
  (forall c, isDigit c = true -> f c = false) ->
  stopsAt f (str (decimal n) ++ r).
Proof.
  intros H. destruct (decimal_cons n) as (c & ds & -> & Hc).
  simpl. now apply H.
Qed.

Lemma bind_step {A B} (p : Mona.Parser A) (k : A -> Mona.Parser B) s a r :
  p s = Some (a, r) -> Mona.bind p k s = k a r.
Proof. intros E. unfold Mona.bind. now rewrite E. Qed.

Lemma bind_fail {A B} (p : Mona.Parser A) (k : A -> Mona.Parser B) s :
  p s = None -> Mona.bind p k s = None.
Proof. intros E. unfold Mona.bind. now rewrite E. Qed.

Lemma spaces_blank (s : Stream) :
  Mona.spaces (" "%char :: s) = Some (" "%string, skipSpaces s).
Proof.
  unfold Mona.spaces, skipSpaces. simpl.
  now destruct (span isSpace s).
Qed.

Lemma skipSpaces_blank (s : Stream) :
  skipSpaces (" "%char :: s) = skipSpaces s.
Proof. unfold skipSpaces. simpl. now destruct (span isSpace s). Qed.

Lemma spaces_stops (s : Stream) : stopsAt isSpace s -> Mona.spaces s = None.
Proof. intros H. unfold Mona.spaces. now rewrite span_stops. Qed.

Lemma maybe_spaces_rest (s : Stream) :
  exists w, Mona.maybe Mona.spaces s = Some (w, skipSpaces s).
Proof.
  unfold Mona.maybe, Mona.spaces, skipSpaces.
  pose proof (span_app isSpace s) as E.
  destruct (span isSpace s) as [[|c a] b]; simpl in *.
  - exists None. now rewrite E.
  - now exists (Some " "%string).
Qed.

Lemma natural_numeral (n : Z) (r : Stream) :
  0 <= n -> stopsAt isDigit r ->
  Mona.natural (str (decimal n) ++ r) = Some (n, r).
Proof.
  intros Hn Hr. unfold Mona.natural.
  rewrite (span_all isDigit _ _ (decimal_digits n) Hr).
  destruct (decimal_cons n) as (c & ds & E & _).
  rewrite <- (parseInt_decimal n Hn) at 2. now rewrite E.
Qed.

Lemma or_cons {A} (p : Mona.Parser A) ps s :
  Mona.or (p :: ps) s =
  match p s with Some r => Some r | None => Mona.or ps s end.
Proof. reflexivity. Qed.

Lemma or_hit {A} (p : Mona.Parser A) ps s r :
  p s = Some r -> Mona.or (p :: ps) s = Some r.
Proof. intros E. now rewrite or_cons, E. Qed.

Lemma or_miss {A} (p : Mona.Parser A) ps s :
  p s = None -> Mona.or (p :: ps) s = Mona.or ps s.
Proof. intros E. now rewrite or_cons, E. Qed.

Lemma string_mismatch (lit : string) (a c : ascii) (l r : Stream) :
  str lit = a :: l -> Ascii.eqb a c = false ->
  Mona.string lit (c :: r) = None.
Proof.
  intros E H. unfold Mona.string. rewrite E. simpl. now rewrite H.
Qed.

Lemma integer_numeral (n : Z) (r : Stream) :
  0 <= n -> stopsAt isDigit r ->
  Mona.integer (str (decimal n) ++ r) = Some (n, r).
Proof.
  intros Hn Hr. unfold Mona.integer.
  pose proof (natural_numeral n r Hn Hr) as E.
  destruct (decimal_cons n) as (c & ds & Ec & Hc).
  rewrite Ec in *. destruct (digit_not_sign c Hc) as [Hp Hm].
  assert (Mona.maybe (Mona.or [Mona.string "+"; Mona.string "-"])
                     ((c :: ds) ++ r) = Some (None, (c :: ds) ++ r)) as Es.
  { unfold Mona.maybe. cbn [app].
    rewrite or_miss by exact (string_mismatch "+" "+" c [] _ eq_refl Hp).
    now rewrite or_miss by exact (string_mismatch "-" "-" c [] _ eq_refl Hm). }
  rewrite (bind_step _ _ _ _ _ Es), (bind_step _ _ _ _ _ E).
  unfold Mona.value. now rewrite Z.mul_1_r.
Qed.

Lemma token_blank (t r : Stream) :
  forallb (fun c => negb (Ascii.eqb c " ")) t = true ->
  Mona.textNoneOfSpace (t ++ " "%char :: r) = Some (t, " "%char :: r).
Proof.
  intros H. unfold Mona.textNoneOfSpace.
  now rewrite (span_all _ t (" "%char :: r) H eq_refl).
Qed.

Lemma token_end (t : Stream) :
  forallb (fun c => negb (Ascii.eqb c " ")) t = true ->
  Mona.textNoneOfSpace t = Some (t, []).
Proof.
  intros H. unfold Mona.textNoneOfSpace.
  rewrite <- (List.app_nil_r t) at 1. now rewrite (span_all _ t [] H I).
Qed.

(** ** The phrases of the grammar on known input *)

Ltac unit_cases Hu pl :=
  repeat (destruct Hu as [<- | Hu]; [destruct pl | ]); [.. | destruct Hu].

Section Phrases.

Variable clock : Moment.Date.

Lemma firstFormat_rest unit text formats s v r :
  firstFormat clock unit text formats s = Some (v, r) -> r = s.
Proof.
  induction formats as [|f fs IH]; simpl; [discriminate|].
  destruct (Moment.isValid _); [|exact IH].
  now intros [= _ <-].
Qed.

Lemma firstFormat_stream unit text formats s s' :
  firstFormat clock unit text formats s =
  match firstFormat clock unit text formats s' with
  | Some (v, _) => Some (v, s)
  | None => None
  end.
Proof.
  induction formats as [|f fs IH]; simpl; [reflexivity|].
  destruct (Moment.isValid _); [reflexivity|exact IH].
Qed.

(** On a numeral followed by a blank, [month()] fails or stops at the
    blank. *)
Lemma month_numeral (n : Z) (r : Stream) :
  month clock (str (decimal n) ++ " "%char :: r) = None \/
  exists v, month clock (str (decimal n) ++ " "%char :: r)
            = Some (v, " "%char :: r).
Proof.
  unfold month, momentParser, Mona.label.
  rewrite (bind_step _ _ _ _ _ (token_blank _ r
             (forallb_impl _ _ _ digit_not_blank (decimal_digits n)))).
  destruct (firstFormat clock Moment.getMonth (str (decimal n))
                        [Moment.MMM; Moment.M] (" "%char :: r))
    as [[v r']|] eqn:E; [right|now left].
  exists v. now rewrite (firstFormat_rest _ _ _ _ _ _ E).
Qed.

Lemma day_numeral (d : Z) (r : Stream) :
  0 <= d -> stopsAt isDigit r ->
  day (str (decimal d) ++ r)
  = if (1 <=? d) && (d <=? 31) then Some (d, r) else None.
Proof.
  intros Hd Hr. unfold day, Mona.label.
  rewrite (bind_step _ _ _ _ _ (integer_numeral d r Hd Hr)).
  now destruct ((1 <=? d) && (d <=? 31)).
Qed.

Lemma intervalUnit_word (u : string) (pl : bool) (x : Stream) :
  In u unitWords ->
  intervalUnit (str (plural u pl) ++ " "%char :: x)
  = Some (u, " "%char :: x).
Proof. intros Hu. unit_cases Hu pl; reflexivity. Qed.

Lemma day_word (u : string) (pl : bool) (x : Stream) :
  In u unitWords -> day (str (plural u pl) ++ x) = None.
Proof. intros Hu. unit_cases Hu pl; reflexivity. Qed.

Lemma year_word (u : string) (pl : bool) (x : Stream) :
  In u unitWords ->
  year clock (str (plural u pl) ++ " "%char :: x) = None.
Proof. intros Hu. unit_cases Hu pl; reflexivity. Qed.

Lemma word_stops (u : string) (pl : bool) (x : Stream) :
  In u unitWords -> skipSpaces (str (plural u pl) ++ x) = str (plural u pl) ++ x.
Proof. intros Hu. unit_cases Hu pl; reflexivity. Qed.

(** No locale date starts with a count and a unit word. *)
Lemma localeDate_relative (n : Z) (u : string) (pl : bool) (x : Stream) :
  In u unitWords ->
  localeDate clock
    (str (decimal n) ++ " "%char :: str (plural u pl) ++ " "%char :: x)
  = None.
Proof.
  intros Hu. unfold localeDate.
  assert (forall {A} (k : Z -> Mona.Parser A),
    Mona.bind (month clock) (fun m =>
      Mona.bind Mona.spaces (fun _ => k m))
      (str (decimal n) ++ " "%char :: str (plural u pl) ++ " "%char :: x)
    = match month clock (str (decimal n) ++ " "%char :: str (plural u pl) ++ " "%char :: x) with
      | Some (m, _) => k m (str (plural u pl) ++ " "%char :: x)
      | None => None
      end) as Hm.
  { intros A k.
    destruct (month_numeral n (str (plural u pl) ++ " "%char :: x))
      as [E | [v E]]; rewrite E.
    - now apply bind_fail.
    - rewrite (bind_step _ _ _ _ _ E).
      rewrite (bind_step _ _ _ _ _ (spaces_blank _)).
      now rewrite word_stops. }
  rewrite or_miss, or_miss, or_miss; [reflexivity | ..].
  - unfold monthAndYear. rewrite Hm.
    destruct (month clock _) as [[m ?]|]; [|reflexivity].
    apply bind_fail. now apply year_word.
  - unfold monthAndDay. rewrite Hm.
    destruct (month clock _) as [[m ?]|]; [|reflexivity].
    apply bind_fail. now apply day_word.
  - unfold fullDate. rewrite Hm.
    destruct (month clock _) as [[m ?]|]; [|reflexivity].
    apply bind_fail. now apply day_word.
Qed.

Lemma relativeDate_phrase (rec : Mona.Parser Moment.Date)
      (n : Z) (u : string) (pl : bool) (x : Stream) :
  0 <= n -> In u unitWords ->
  relativeDate clock rec
    (str (decimal n) ++ " "%char :: str (plural u pl) ++ " "%char :: x)
  = match referenceDate clock rec (skipSpaces x) with
    | Some (reference, r) =>
        Some (Moment.toDate
                (Moment.subtract u n (Moment.ofDate reference)), r)
    | None => None
    end.
Proof.
  intros Hn Hu. unfold relativeDate.
  assert (Mona.or [interval; Mona.value 1]
            (str (decimal n) ++ " "%char :: str (plural u pl) ++ " "%char :: x)
          = Some (n, " "%char :: str (plural u pl) ++ " "%char :: x)) as E1.
  { apply or_hit. unfold interval. apply or_hit.
    now apply integer_numeral. }
  rewrite (bind_step _ _ _ _ _ E1).
  assert (Mona.maybe Mona.spaces
            (" "%char :: str (plural u pl) ++ " "%char :: x)
          = Some (Some " "%string, str (plural u pl) ++ " "%char :: x)) as E2.
  { unfold Mona.maybe. now rewrite spaces_blank, word_stops. }
  rewrite (bind_step _ _ _ _ _ E2).
  rewrite (bind_step _ _ _ _ _ (intervalUnit_word u pl x Hu)).
  rewrite (bind_step _ _ _ _ _ (spaces_blank x)).
  unfold Mona.bind, Mona.value.
  now destruct (referenceDate clock rec (skipSpaces x)) as [[ref r]|].
Qed.

(** What [englishDateParser()] computes: the ordered choice after
    optional white space, accepted when only white space follows. *)
Lemma dateParserBody_eq (rec : Mona.Parser Moment.Date) (s : Stream) :
  dateParserBody clock rec s =
  match Mona.or (dateAlternatives clock rec) (skipSpaces s) with
  | Some (d, r) =>
      match skipSpaces r with
      | [] => Some (d, [])
      | _ :: _ => None
      end
  | None => None
  end.
Proof.
  unfold dateParserBody, Mona.followedBy, Mona.and_.
  destruct (maybe_spaces_rest s) as [w E].
  cbv [Mona.bind]. rewrite E.
  destruct (Mona.or _ (skipSpaces s)) as [[d r]|]; [|reflexivity].
  destruct (maybe_spaces_rest r) as [w' E'].
  rewrite E'. unfold Mona.eof, Mona.value.
  now destruct (skipSpaces r).
Qed.

Lemma dateParser_eq (s : Stream) :
  dateParser clock s =
  match Mona.or (dateAlternatives clock (dateParser clock)) (skipSpaces s)
  with
  | Some (d, r) =>
      match skipSpaces r with
      | [] => Some (d, [])
      | _ :: _ => None
      end
  | None => None
  end.
Proof. rewrite dateParser_unfold. apply dateParserBody_eq. Qed.

(** The date parser consumes its whole input. *)
Lemma dateParser_all (s : Stream) d r :
  dateParser clock s = Some (d, r) -> r = [].
Proof.
  rewrite dateParser_eq.
  destruct (Mona.or _ _) as [[d' r']|]; [|discriminate].
  destruct (skipSpaces r'); [|discriminate]. now intros [= _ <-].
Qed.

Lemma skipSpaces_idem (s : Stream) : skipSpaces (skipSpaces s) = skipSpaces s.
Proof.
  apply skipSpaces_stops. unfold skipSpaces.
  induction s as [|c s IH]; simpl; [exact I|].
  destruct (isSpace c) eqn:E; [|simpl; exact E].
  now destruct (span isSpace s).
Qed.

(** Leading white space is not seen by the date parser. *)
Lemma dateParser_skipSpaces (s : Stream) :
  dateParser clock (skipSpaces s) = dateParser clock s.
Proof. now rewrite (dateParser_eq s), dateParser_eq, skipSpaces_idem. Qed.

Lemma parseDate_eq (s : string) :
  parseDate clock s =
  match dateParser clock (str s) with
  | Some (d, _) => Some d
  | None => None
  end.
Proof. reflexivity. Qed.

Lemma digit_differs (a c : ascii) :
  isDigit a = false -> isDigit c = true -> Ascii.eqb a c = false.
Proof.
  intros Ha Hc. destruct (Ascii.eqb a c) eqn:E; [|reflexivity].
  apply Ascii.eqb_eq in E. congruence.
Qed.

(** The keyword dates do not start with a digit. *)
Lemma keywords_numeral (n : Z) (r : Stream) :
  Mona.or [now clock; yesterday clock] (str (decimal n) ++ r) = None.
Proof.
  destruct (decimal_cons n) as (c & ds & -> & Hc). cbn [app].
  rewrite or_miss, or_miss; [reflexivity | |].
  - unfold yesterday, Mona.and_. apply bind_fail.
    apply (string_mismatch "yesterday" "y" c _ _ eq_refl).
    now apply digit_differs.
  - unfold now, Mona.and_. apply bind_fail.
    rewrite or_miss, or_miss; [reflexivity | |].
    + apply (string_mismatch "now" "n" c _ _ eq_refl).
      now apply digit_differs.
    + apply (string_mismatch "today" "t" c _ _ eq_refl).
      now apply digit_differs.
Qed.

(** A count, a unit word and a reference clause: the parse is decided
    by the relative-date alternative alone. *)
Lemma dateParser_relative (n : Z) (u : string) (pl : bool) (x : Stream) :
  0 <= n -> In u unitWords ->
  dateParser clock
    (str (decimal n) ++ " "%char :: str (plural u pl) ++ " "%char :: x)
  = match referenceDate clock (dateParser clock) (skipSpaces x) with
    | Some (reference, r) =>
        match skipSpaces r with
        | [] => Some (Moment.toDate
                        (Moment.subtract u n (Moment.ofDate reference)), [])
        | _ :: _ => None
        end
    | None => None
    end.
Proof.
  intros Hn Hu. rewrite dateParser_eq.
  rewrite skipSpaces_stops by (apply numeral_stops, digit_not_space).
  unfold dateAlternatives.
  rewrite or_miss by now apply localeDate_relative.
  rewrite or_cons, relativeDate_phrase by assumption.
  destruct (referenceDate clock (dateParser clock) (skipSpaces x))
    as [[ref r]|]; [reflexivity|].
  now rewrite keywords_numeral.
Qed.

Lemma referenceDate_preposition (rec : Mona.Parser Moment.Date)
      (p : string) (x : Stream) :
  In p prepositions ->
  referenceDate clock rec (str p ++ " "%char :: x) = rec (skipSpaces x).
Proof.
  intros Hp. unfold referenceDate.
  assert (Mona.or [Mona.string "from"; Mona.string "before";
                   Mona.string "until"] (str p ++ " "%char :: x)
          = Some (p, " "%char :: x)) as E.
  { repeat (destruct Hp as [<- | Hp]; [reflexivity|]). destruct Hp. }
  rewrite or_miss, or_cons.
  - unfold Mona.and_. rewrite (bind_step _ _ _ _ _ E).
    rewrite (bind_step _ _ _ _ _ (spaces_blank x)).
    now destruct (rec (skipSpaces x)) as [[d r]|].
  - repeat (destruct Hp as [<- | Hp]; [reflexivity|]). destruct Hp.
Qed.

Lemma str_phrase (a b c : string) :
  str (a ++ " " ++ b ++ " " ++ c) = str a ++ " "%char :: str b ++ " "%char :: str c.
Proof. now rewrite !str_app. Qed.

(** [N u ago] *)
Lemma parseDate_ago (n : Z) (u : string) (pl : bool) :
  0 <= n -> In u unitWords ->
  parseDate clock (decimal n ++ " " ++ plural u pl ++ " ago")
  = Some (Moment.toDate
            (Moment.subtract u n (Moment.startOfDay (Moment.ofDate clock)))).
Proof.
  intros Hn Hu. rewrite parseDate_eq.
  change (" ago"%string) with (" " ++ "ago")%string.
  rewrite str_phrase, dateParser_relative by assumption.
  reflexivity.
Qed.

(** [N u from R], [N u before R], [N u until R] *)
Lemma parseDate_preposition (n : Z) (u p R : string) (pl : bool) :
  0 <= n -> In u unitWords -> In p prepositions ->
  parseDate clock (decimal n ++ " " ++ plural u pl ++ " " ++ p ++ " " ++ R)
  = match parseDate clock R with
    | Some reference =>
        Some (Moment.toDate (Moment.subtract u n (Moment.ofDate reference)))
    | None => None
    end.
Proof.
  intros Hn Hu Hp. rewrite !parseDate_eq.
  rewrite str_phrase, dateParser_relative by assumption.
  assert (skipSpaces (str (p ++ " " ++ R)) = str p ++ " "%char :: str R)
    as ->.
  { rewrite str_app. cbn [str list_ascii_of_string app]. fold (str R).
    repeat (destruct Hp as [<- | Hp]; [reflexivity|]). destruct Hp. }
  rewrite referenceDate_preposition, dateParser_skipSpaces by assumption.
  destruct (dateParser clock (str R)) as [[ref r]|] eqn:E; [|reflexivity].
  now rewrite (dateParser_all _ _ _ E).
Qed.

End Phrases.

(** ** Absolute dates on known input *)

Lemma decimal_length4 (y : Z) :
  1000 <= y <= 9999 -> List.length (str (decimal y)) = 4%nat.
Proof.
  intros Hy.
  assert (forallb (fun k => Nat.eqb
                     (List.length (str (decimal (1000 + Z.of_nat k)))) 4)
                  (seq 0 (Z.to_nat 9000)) = true) as H
      by (vm_compute; reflexivity).
  rewrite forallb_forall in H.
  specialize (H (Z.to_nat (y - 1000))).
  rewrite Z2Nat.id in H by lia.
  replace (1000 + (y - 1000)) with y in H by lia.
  apply Nat.eqb_eq, H, in_seq. lia.
Qed.

Lemma daysInMonth_le (y m : Z) : Moment.daysInMonth y m <= 31.
Proof.
  unfold Moment.daysInMonth.
  destruct (m mod 12 =? 1); [destruct (Moment.isLeapYear _); lia|].
  pose proof (Z.mod_pos_bound ((m mod 12) mod 7) 2). lia.
Qed.

Lemma findDigits_digits (n : nat) (ds : Stream) :
  ds <> [] -> forallb isDigit ds = true ->
  Moment.findDigits n ds = Some (firstn n ds).
Proof.
  intros Hne Hd. destruct ds as [|c ds]; [congruence|].
  pose proof Hd as Hd'. simpl in Hd'. apply andb_true_iff in Hd' as [Hc _].
  unfold Moment.findDigits. rewrite Hc.
  rewrite <- (List.app_nil_r (c :: ds)) at 1.
  now rewrite (span_all isDigit (c :: ds) [] Hd I).
Qed.

Section AbsoluteDates.

Variable clock : Moment.Date.

Lemma year_numeral (y : Z) :
  1000 <= y <= 9999 -> year clock (str (decimal y)) = Some (y, []).
Proof.
  intros Hy. unfold year, momentParser, Mona.label.
  rewrite (bind_step _ _ _ _ _ (token_end _
             (forallb_impl _ _ _ digit_not_blank (decimal_digits y)))).
  pose proof (decimal_length4 y Hy) as Hl.
  assert (str (decimal y) <> []) as Hne
      by (intros E; rewrite E in Hl; discriminate).
  cbn [firstFormat]. unfold Moment.ofString.
  rewrite (findDigits_digits 4 _ Hne (decimal_digits y)).
  rewrite firstn_all2 by lia. rewrite Hl. cbn [Nat.eqb Moment.isValid].
  unfold Mona.value, Moment.getYear. cbn [Moment.toDate Moment.year].
  now rewrite parseInt_decimal by lia.
Qed.

Lemma month_name (i : nat) (name : string) (r : Stream) :
  nth_error Moment.monthsShort i = Some name \/
  nth_error Moment.months i = Some name ->
  month clock (str name ++ " "%char :: r) = Some (Z.of_nat i, " "%char :: r) /\
  skipSpaces (str name ++ " "%char :: r) = str name ++ " "%char :: r /\
  (i < 12)%nat.
Proof.
  intros H.
  do 12 (destruct i as [|i];
         [destruct H as [[= <-] | [= <-]]; repeat split; lia|]).
  destruct H as [H | H]; destruct i; discriminate.
Qed.

(** [fullDate] on a month name, a day numeral, a separator and a
    four-digit year. *)
Lemma fullDate_numerals (i : nat) (name : string) (d y : Z) (comma : bool) :
  nth_error Moment.monthsShort i = Some name \/
  nth_error Moment.months i = Some name ->
  1000 <= y <= 9999 -> 1 <= d <= Moment.daysInMonth y (Z.of_nat i) ->
  fullDate clock
    (str name ++ " "%char :: str (decimal d)
       ++ (if comma then [","%char] else []) ++ " "%char :: str (decimal y))
  = Some (Moment.mkDate y (Z.of_nat i) d 0, []).
Proof.
  intros Hname Hy Hd.
  destruct (month_name i name
              (str (decimal d) ++ (if comma then [","%char] else [])
                 ++ " "%char :: str (decimal y)) Hname) as (Em & _ & Hi).
  pose proof (daysInMonth_le y (Z.of_nat i)) as H31.
  unfold fullDate.
  rewrite (bind_step _ _ _ _ _ Em).
  rewrite (bind_step _ _ _ _ _ (spaces_blank _)).
  rewrite skipSpaces_stops by (apply numeral_stops, digit_not_space).
  assert (day (str (decimal d) ++ (if comma then [","%char] else [])
                 ++ " "%char :: str (decimal y))
          = Some (d, (if comma then [","%char] else [])
                       ++ " "%char :: str (decimal y))) as Ed.
  { rewrite day_numeral; [| lia | now destruct comma].
    replace ((1 <=? d) && (d <=? 31)) with true; [reflexivity|].
    symmetry. apply andb_true_iff. split; apply Z.leb_le; lia. }
  rewrite (bind_step _ _ _ _ _ Ed).
  assert (exists w, Mona.maybe (Mona.string ",")
                      ((if comma then [","%char] else [])
                         ++ " "%char :: str (decimal y))
                    = Some (w, " "%char :: str (decimal y))) as [w Ec]
      by (destruct comma; eexists; reflexivity).
  rewrite (bind_step _ _ _ _ _ Ec).
  destruct (maybe_spaces_rest (" "%char :: str (decimal y))) as [w' Es].
  rewrite (bind_step _ _ _ _ _ Es).
  rewrite skipSpaces_blank.
  rewrite <- (List.app_nil_r (str (decimal y))).
  rewrite skipSpaces_stops by (apply numeral_stops, digit_not_space).
  rewrite List.app_nil_r.
  rewrite (bind_step _ _ _ _ _ (year_numeral y Hy)).
  unfold Moment.ofArray, Moment.isValid, Moment.toDate, Mona.value.
  replace ((0 <=? Z.of_nat i) && (Z.of_nat i <=? 11) && (1 <=? d)
           && (d <=? Moment.daysInMonth y (Z.of_nat i))) with true;
    [reflexivity|].
  symmetry. repeat (apply andb_true_iff; split); apply Z.leb_le; lia.
Qed.

Lemma parseDate_fullDate (i : nat) (name : string) (d y : Z) (comma : bool) :
  nth_error Moment.monthsShort i = Some name \/
  nth_error Moment.months i = Some name ->
  1000 <= y <= 9999 -> 1 <= d <= Moment.daysInMonth y (Z.of_nat i) ->
  parseDate clock
    (name ++ " " ++ decimal d ++ (if comma then "," else "") ++ " "
       ++ decimal y)
  = Some (Moment.mkDate y (Z.of_nat i) d 0).
Proof.
  intros Hname Hy Hd. rewrite parseDate_eq, dateParser_eq.
  assert (str (name ++ " " ++ decimal d ++ (if comma then "," else "")
                 ++ " " ++ decimal y)
          = str name ++ " "%char :: str (decimal d)
              ++ (if comma then [","%char] else [])
              ++ " "%char :: str (decimal y)) as ->
      by (rewrite !str_app; now destruct comma).
  destruct (month_name i name
              (str (decimal d) ++ (if comma then [","%char] else [])
                 ++ " "%char :: str (decimal y)) Hname) as (_ & -> & _).
  unfold dateAlternatives, localeDate.
  rewrite (or_hit _ _ _ _ (or_hit _ _ _ _
             (fullDate_numerals i name d y comma Hname Hy Hd))).
  reflexivity.
Qed.

End AbsoluteDates.

(** ** Letter case *)






(** * The claims *)

Section Claims.

Variable clock : Moment.Date.


(** C3: the reference clause is resolved first.  "2 days before Aug 30"
    is 28 August of the current year, and "1 month from 2 days before
    Aug 30" is that date minus one month, 28 July. *)
Theorem nested_reference_inner_first :
  let inner := Moment.mkDate (Moment.year clock) 7 28 0 in
  parseDate clock "2 days before Aug 30" = Some inner /\
  parseDate clock "1 month from 2 days before Aug 30"
  = Some (Moment.toDate (Moment.subtract "month" 1 (Moment.ofDate inner))) /\
  Moment.toDate (Moment.subtract "month" 1 (Moment.ofDate inner))
  = Moment.mkDate (Moment.year clock) 6 28 0.
Proof.
  intros inner.
  assert (parseDate clock "2 days before Aug 30" = Some inner) as Hinner.
  { change "2 days before Aug 30"%string
      with (decimal 2 ++ " " ++ plural "day" true ++ " "
              ++ "before" ++ " " ++ "Aug 30")%string.
    rewrite parseDate_preposition; [| lia | simpl; tauto | simpl; tauto].
    vm_compute. reflexivity. }
  split; [exact Hinner|]. split.
  - change "1 month from 2 days before Aug 30"%string
      with (decimal 1 ++ " " ++ plural "month" false ++ " "
              ++ "from" ++ " " ++ "2 days before Aug 30")%string.
    rewrite parseDate_preposition; [| lia | simpl; tauto | simpl; tauto].
    now rewrite Hinner.
  - unfold inner. cbn. now rewrite Z.add_0_r.
Qed.

(** C4: "N u from R", "N u before R" and "N u until R" parse alike.
    When the phrase with "before" parses to a date, the other two parse
    to the same date, and that date is the date of R minus N units u:
    the interval is subtracted, also after "from". *)
Theorem prepositions_equivalent (n : Z) (u R : string) (pl : bool)
        (d : Moment.Date) :
  0 <= n -> In u unitWords ->
  parseDate clock (decimal n ++ " " ++ plural u pl ++ " before " ++ R)
  = Some d ->
  parseDate clock (decimal n ++ " " ++ plural u pl ++ " from " ++ R) = Some d /\
  parseDate clock (decimal n ++ " " ++ plural u pl ++ " until " ++ R) = Some d /\
  exists reference,
    parseDate clock R = Some reference /\
    d = Moment.toDate (Moment.subtract u n (Moment.ofDate reference)).
Proof.
  intros Hn Hu.
  change (" before " ++ R)%string with (" " ++ "before" ++ " " ++ R)%string.
  change (" from " ++ R)%string with (" " ++ "from" ++ " " ++ R)%string.
  change (" until " ++ R)%string with (" " ++ "until" ++ " " ++ R)%string.
  rewrite !parseDate_preposition by (assumption || (simpl; tauto)).
  destruct (parseDate clock R) as [reference|]; [|discriminate].
  intros [= <-]. repeat split. now exists reference.
Qed.

(** C1: the code departs from the claim.  On "Feb 30" the month-and-day
    alternative does fail, the date being impossible, but the
    month-and-year alternative then reads the token 30 as a year, and
    [parseDate] returns 1 February 2030; "Apr 31" likewise gives 1 April
    2031. *)
Theorem invalid_day_read_as_year :
  monthAndDay clock (str "Feb 30") = None /\
  monthAndYear clock (str "Feb 30") = Some (Moment.mkDate 2030 1 1 0, []) /\
  parseDate clock "Feb 30" = Some (Moment.mkDate 2030 1 1 0) /\
  parseDate clock "Apr 31" = Some (Moment.mkDate 2031 3 1 0).
Proof.
  assert (forall s m d r,
             month clock s = Some (m, " "%char :: str (decimal d) ++ r) ->
             0 <= d -> stopsAt isDigit r ->
             Moment.daysInMonth (Moment.year clock) m < d ->
             monthAndDay clock s = None) as Hmd.
  { intros s m d r Em Hd Hr Hlt. unfold monthAndDay.
    rewrite (bind_step _ _ _ _ _ Em).
    rewrite (bind_step _ _ _ _ _ (spaces_blank _)).
    rewrite skipSpaces_stops by (apply numeral_stops, digit_not_space).
    pose proof (day_numeral d r Hd Hr) as Ed.
    destruct ((1 <=? d) && (d <=? 31));
      [rewrite (bind_step _ _ _ _ _ Ed) | now rewrite (bind_fail _ _ _ Ed)].
    unfold Mona.value, Moment.ofArray, Moment.isValid, Moment.getYear,
      Moment.ofDate, Moment.toDate.
    replace (d <=? Moment.daysInMonth (Moment.year clock) m) with false
      by (symmetry; apply Z.leb_gt; exact Hlt).
    now rewrite !andb_false_r. }
  assert (forall y, Moment.daysInMonth y 1 < 30) as Hfeb.
  { intros y. unfold Moment.daysInMonth. cbn -[Moment.isLeapYear Z.add].
    destruct (Moment.isLeapYear _); lia. }
  assert (monthAndDay clock (str "Feb 30") = None) as E1.
  { apply (Hmd _ 1 30 []); [reflexivity | lia | exact I | apply Hfeb]. }
  assert (monthAndDay clock (str "Apr 31") = None) as E2.
  { apply (Hmd _ 3 31 []); [reflexivity | lia | exact I | reflexivity]. }
  split; [exact E1|]. split; [reflexivity|].
  split; rewrite parseDate_eq, dateParser_eq.
  - change (skipSpaces (str "Feb 30")) with (str "Feb 30").
    unfold dateAlternatives, localeDate.
    rewrite !or_cons, E1. reflexivity.
  - change (skipSpaces (str "Apr 31")) with (str "Apr 31").
    unfold dateAlternatives, localeDate.
    rewrite !or_cons, E2. reflexivity.
Qed.

(** C5: the code departs from the claim.  The year parser hands the
    token to moment's forgiving parser, which takes the first run of one
    to four digits: the token 13 is read as the year 2013, the token 201
    as the year 201, and "Aug 20, 13" parses to 20 August 2013. *)
Theorem year_accepts_short_token :
  year clock (str "13") = Some (2013, []) /\
  year clock (str "201") = Some (201, []) /\
  parseDate clock "Aug 20, 13" = Some (Moment.mkDate 2013 7 20 0).
Proof. repeat split; vm_compute; reflexivity. Qed.

(** C6: the code departs from the claim.  The second format handed to
    moment is the numeric month 'M', so a bare numeral is accepted as a
    month: the token 8 is August, and "8 2013" parses to 1 August 2013. *)
Theorem month_accepts_numeral :
  month clock (str "8") = Some (7, []) /\
  parseDate clock "8 2013" = Some (Moment.mkDate 2013 7 1 0) /\
  parseDate clock "8 20, 2013" = Some (Moment.mkDate 2013 7 20 0).
Proof. repeat split; vm_compute; reflexivity. Qed.


(** C9: end of input is enforced after the top-level alternation.  When
    the ordered choice, run after the optional leading white space,
    matches a prefix and leaves a character other than white space
    unconsumed, [parseDate] fails as a whole instead of returning the
    partial match. *)
Theorem trailing_garbage_rejected (s : string) (d : Moment.Date)
        (r : Stream) :
  Mona.or (dateAlternatives clock (dateParser clock)) (skipSpaces (str s))
  = Some (d, r) ->
  existsb (fun c => negb (isSpace c)) r = true ->
  parseDate clock s = None.
Proof.
  intros E Hr. rewrite parseDate_eq, dateParser_eq, E.
  destruct (skipSpaces r) as [|c r'] eqn:Er; [|reflexivity].
  exfalso. revert Hr Er. unfold skipSpaces. clear.
  induction r as [|c r IH]; simpl; [discriminate|].
  destruct (isSpace c); simpl; [|discriminate].
  destruct (span isSpace r) as [a b]. simpl in *. exact IH.
Qed.

(** C7: for every real calendar date, written with its English month
    name (short or long), its day of month and its four-digit year,
    "Mon D, Y" and "Mon D Y" both parse to midnight of that very day; the
    comma changes nothing. *)
Theorem full_date_comma_optional (i : nat) (name : string) (d y : Z) :
  nth_error Moment.monthsShort i = Some name \/
  nth_error Moment.months i = Some name ->
  1000 <= y <= 9999 -> 1 <= d <= Moment.daysInMonth y (Z.of_nat i) ->
  parseDate clock (name ++ " " ++ decimal d ++ ", " ++ decimal y)
  = Some (Moment.mkDate y (Z.of_nat i) d 0) /\
  parseDate clock (name ++ " " ++ decimal d ++ " " ++ decimal y)
  = Some (Moment.mkDate y (Z.of_nat i) d 0).
Proof.
  intros Hname Hy Hd. split.
  - exact (parseDate_fullDate clock i name d y true Hname Hy Hd).
  - exact (parseDate_fullDate clock i name d y false Hname Hy Hd).
Qed.


End Claims.


(** ** The theorems at a sample clock reading *)


Lemma prepositions_equivalent_witness :
  0 <= 3 /\ In "day"%string unitWords /\
  parseDate sampleClock "3 days before yesterday"
  = Some (Moment.mkDate 2024 2 11 0) /\
  parseDate sampleClock "3 days from yesterday"
  = Some (Moment.mkDate 2024 2 11 0) /\
  parseDate sampleClock "3 days until yesterday"
  = Some (Moment.mkDate 2024 2 11 0) /\
  exists reference,
    parseDate sampleClock "yesterday" = Some reference /\
    Moment.mkDate 2024 2 11 0
    = Moment.toDate (Moment.subtract "day" 3 (Moment.ofDate reference)).
Proof.
  split; [lia|]. split; [left; reflexivity|].
  split; [vm_compute; reflexivity|].
  apply (prepositions_equivalent sampleClock 3 "day" "yesterday" true);
    [lia | left; reflexivity | vm_compute; reflexivity].
Defined.

Lemma full_date_comma_optional_witness :
  nth_error Moment.monthsShort 7 = Some "Aug"%string /\
  1000 <= 2013 <= 9999 /\ 1 <= 20 <= Moment.daysInMonth 2013 7 /\
  parseDate sampleClock "Aug 20, 2013" = Some (Moment.mkDate 2013 7 20 0) /\
  parseDate sampleClock "Aug 20 2013" = Some (Moment.mkDate 2013 7 20 0).
Proof.
  split; [reflexivity|]. split; [lia|].
  split; [change (Moment.daysInMonth 2013 7) with 31; lia|].
  apply (full_date_comma_optional sampleClock 7 "Aug" 20 2013);
    [left; reflexivity | lia
     | change (Moment.daysInMonth 2013 (Z.of_nat 7)) with 31; lia].
Defined.


Lemma trailing_garbage_rejected_witness :
  Mona.or (dateAlternatives sampleClock (dateParser sampleClock))
          (skipSpaces (str "today please"))
  = Some (today sampleClock, str " please") /\
  existsb (fun c => negb (isSpace c)) (str " please") = true /\
  parseDate sampleClock "today please" = None.
Proof.
  split; [vm_compute; reflexivity|]. split; [reflexivity|].
  apply (trailing_garbage_rejected sampleClock "today please"
           (today sampleClock) (str " please"));
    [vm_compute; reflexivity | reflexivity].
Defined.

(** * Further properties of the grammar *)


(** ** What every parsed date satisfies *)






Section Invariant.

Variable clock : Moment.Date.
Variable P : Moment.Date -> Prop.

Hypothesis P_today : P (today clock).
Hypothesis P_yesterday :
  P (Moment.toDate
       (Moment.startOfDay (Moment.subtract "day" 1 (Moment.ofDate clock)))).
Hypothesis P_array :
  forall y m d, Moment.isValid (Moment.ofArray y m d) = true ->
                P (Moment.mkDate y m d 0).
Hypothesis P_subtract :
  forall u n reference,
    In u unitWords -> P reference ->
    P (Moment.toDate (Moment.subtract u n (Moment.ofDate reference))).






End Invariant.




Lemma daysInMonth_ge (y m : Z) : 28 <= Moment.daysInMonth y m.
Proof.
  unfold Moment.daysInMonth.
  destruct (m mod 12 =? 1); [destruct (Moment.isLeapYear _); lia|].
  pose proof (Z.mod_pos_bound ((m mod 12) mod 7) 2). lia.
Qed.









(** ** White space and empty input *)

Lemma skipSpaces_app (ws s : Stream) :
  forallb isSpace ws = true -> skipSpaces (ws ++ s) = skipSpaces s.
Proof.
  intros H. induction ws as [|c ws IH]; [reflexivity|].
  simpl in H. apply andb_true_iff in H as [Hc Hws].
  unfold skipSpaces in *. simpl. rewrite Hc.
  specialize (IH Hws). now destruct (span isSpace (ws ++ s)).
Qed.

(** X3: an empty input, or one made of white space only, is not a date. *)
Theorem blank_input_rejected (clock : Moment.Date) (s : string) :
  forallb isSpace (str s) = true -> parseDate clock s = None.
Proof.
  intros H. rewrite parseDate_eq, dateParser_eq.
  rewrite <- (List.app_nil_r (str s)), (skipSpaces_app _ [] H).
  reflexivity.
Qed.

Lemma blank_input_rejected_witness :
  forallb isSpace (str "   ") = true /\ parseDate sampleClock "   " = None.
Proof.
  split; [reflexivity|].
  apply (blank_input_rejected sampleClock "   "). reflexivity.
Defined.

(** X4: white space before the date is skipped: it changes neither whether
    the input parses nor the date. *)
Theorem leading_space_ignored (clock : Moment.Date) (ws s : string) :
  forallb isSpace (str ws) = true ->
  parseDate clock (ws ++ s) = parseDate clock s.
Proof.
  intros H. rewrite !parseDate_eq, (dateParser_eq clock (str (ws ++ s))),
              (dateParser_eq clock (str s)).
  now rewrite str_app, skipSpaces_app.
Qed.

Lemma leading_space_ignored_witness :
  forallb isSpace (str "  ") = true /\
  parseDate sampleClock "  3 days ago" = parseDate sampleClock "3 days ago".
Proof.
  split; [reflexivity|].
  apply (leading_space_ignored sampleClock "  " "3 days ago"). reflexivity.
Defined.

(** ** The component parsers *)

(** X5: [day()] accepts the numeral of [d] exactly when [d] lies between 1
    and 31, and then returns [d]; 0 and 32 are refused. *)
Theorem day_between_1_and_31 (d : Z) (r : Stream) :
  0 <= d -> stopsAt isDigit r ->
  (1 <= d <= 31 -> day (str (decimal d) ++ r) = Some (d, r)) /\
  (~ 1 <= d <= 31 -> day (str (decimal d) ++ r) = None) /\
  (forall s v r', day s = Some (v, r') -> 1 <= v <= 31).
Proof.
  intros Hd Hr. rewrite (day_numeral d r Hd Hr).
  destruct ((1 <=? d) && (d <=? 31)) eqn:E.
  - apply andb_true_iff in E as [E1 E2]. apply Z.leb_le in E1, E2.
    split; [reflexivity|]. split; [lia|].
    intros s v r'. unfold day, Mona.label, Mona.bind.
    destruct (Mona.integer s) as [[n s']|]; [|discriminate].
    destruct ((1 <=? n) && (n <=? 31)) eqn:En; [|discriminate].
    intros [= <- _]. apply andb_true_iff in En as [E3 E4].
    apply Z.leb_le in E3, E4. lia.
  - split; [|split; [reflexivity|]].
    + intros [H1 H2]. apply Z.leb_le in H1, H2. rewrite H1, H2 in E.
      discriminate.
    + intros s v r'. unfold day, Mona.label, Mona.bind.
      destruct (Mona.integer s) as [[n s']|]; [|discriminate].
      destruct ((1 <=? n) && (n <=? 31)) eqn:En; [|discriminate].
      intros [= <- _]. apply andb_true_iff in En as [E3 E4].
      apply Z.leb_le in E3, E4. lia.
Qed.

Lemma day_between_1_and_31_witness :
  0 <= 32 /\ stopsAt isDigit [] /\
  day (str "31") = Some (31, []) /\ day (str "32") = None /\
  day (str "0") = None.
Proof.
  split; [lia|]. split; [exact I|].
  split; [reflexivity|]. split; [|reflexivity].
  apply (proj1 (proj2 (day_between_1_and_31 32 [] ltac:(lia) I))). lia.
Defined.

Lemma monthsParseFrom_range (i0 : Z) names (w : Stream) (i : Z) :
  Moment.monthsParseFrom i0 names w = Some i ->
  i0 <= i < i0 + Z.of_nat (List.length names).
Proof.
  revert i0. induction names as [|[long short] names IH]; intros i0;
    simpl Moment.monthsParseFrom; [discriminate|].
  destruct (_ || _).
  - intros [= <-]. simpl List.length. lia.
  - intros H. apply IH in H. simpl List.length. lia.
Qed.

Lemma month_result (clock : Moment.Date) (s : Stream) (m : Z)
        (r : Stream) :
  month clock s = Some (m, r) ->
  0 <= m <= 11 /\ r = snd (span (fun c => negb (Ascii.eqb c " ")) s).
Proof.
  unfold month, momentParser, Mona.label, Mona.bind, Mona.textNoneOfSpace.
  destruct (span _ s) as [t r0]. cbn [firstFormat snd].
  unfold Moment.ofString.
  destruct (Moment.findWord t) as [w|].
  - destruct (Moment.monthsParse w) as [i|] eqn:Ei.
    + cbn. intros [= <- <-]. split; [|reflexivity].
      apply monthsParseFrom_range in Ei. cbn in Ei. lia.
    + cbn [Moment.isValid Moment.invalid].
      destruct (Moment.findDigits 2 t) as [ds|]; [|discriminate].
      cbn [Moment.isValid].
      destruct ((0 <=? parseInt ds - 1) && (parseInt ds - 1 <=? 11)) eqn:E;
        [|discriminate].
      cbn. intros [= <- <-]. split; [|reflexivity].
      apply andb_true_iff in E as [E1 E2]. apply Z.leb_le in E1, E2. lia.
  - cbn [Moment.isValid Moment.invalid].
    destruct (Moment.findDigits 2 t) as [ds|]; [|discriminate].
    cbn [Moment.isValid].
    destruct ((0 <=? parseInt ds - 1) && (parseInt ds - 1 <=? 11)) eqn:E;
      [|discriminate].
    cbn. intros [= <- <-]. split; [|reflexivity].
    apply andb_true_iff in E as [E1 E2]. apply Z.leb_le in E1, E2. lia.
Qed.

(** X6: [month()] only ever returns a month number in 0..11, and leaves
    the input after the first blank-free token. *)
Theorem month_in_range (clock : Moment.Date) (s : Stream) (m : Z)
        (r : Stream) :
  month clock s = Some (m, r) ->
  0 <= m <= 11 /\ r = snd (span (fun c => negb (Ascii.eqb c " ")) s).
Proof. apply month_result. Qed.

Lemma month_in_range_witness :
  month sampleClock (str "December 2010") = Some (11, str " 2010") /\
  0 <= 11 <= 11.
Proof.
  split; [reflexivity|].
  apply (month_in_range sampleClock (str "December 2010") 11 (str " 2010")).
  reflexivity.
Defined.

Lemma monthAndYear_reads (clock : Moment.Date)
        (s s1 s2 r : Stream) (m y : Z) (w : string) :
  month clock s = Some (m, s1) -> Mona.spaces s1 = Some (w, s2) ->
  year clock s2 = Some (y, r) ->
  monthAndYear clock s = Some (Moment.mkDate y m 1 0, r).
Proof.
  intros Em Es Ey. unfold monthAndYear.
  rewrite (bind_step _ _ _ _ _ Em), (bind_step _ _ _ _ _ Es),
    (bind_step _ _ _ _ _ Ey).
  apply month_result in Em as [Hm _].
  pose proof (daysInMonth_ge y m) as Hd.
  unfold Moment.ofArray. cbn [Moment.isValid Moment.toDate].
  replace ((0 <=? m) && (m <=? 11) && (1 <=? 1)
           && (1 <=? Moment.daysInMonth y m)) with true; [reflexivity|].
  symmetry. repeat (apply andb_true_iff; split); apply Z.leb_le; lia.
Qed.

(** X7: the validity test of [monthAndYear] never fails: once a month,
    white space and a year are read, the first day of that month is a
    date, and it is what [monthAndYear] returns. *)
Theorem monthAndYear_first_of_month (clock : Moment.Date)
        (s s1 s2 r : Stream) (m y : Z) (w : string) :
  month clock s = Some (m, s1) -> Mona.spaces s1 = Some (w, s2) ->
  year clock s2 = Some (y, r) ->
  monthAndYear clock s = Some (Moment.mkDate y m 1 0, r).
Proof. apply monthAndYear_reads. Qed.

Lemma monthAndYear_first_of_month_witness :
  month sampleClock (str "August 2011") = Some (7, str " 2011") /\
  Mona.spaces (str " 2011") = Some (" "%string, str "2011") /\
  year sampleClock (str "2011") = Some (2011, []) /\
  monthAndYear sampleClock (str "August 2011")
  = Some (Moment.mkDate 2011 7 1 0, []).
Proof.
  split; [reflexivity|]. split; [reflexivity|]. split; [reflexivity|].
  apply (monthAndYear_first_of_month sampleClock (str "August 2011")
           (str " 2011") (str "2011") [] 7 2011 " "); reflexivity.
Defined.

(** ** Partial dates *)

Lemma numeral_end_stops (n : Z) : skipSpaces (str (decimal n)) = str (decimal n).
Proof.
  rewrite <- (List.app_nil_r (str (decimal n))).
  apply skipSpaces_stops, numeral_stops, digit_not_space.
Qed.

Lemma day_numeral_end (d : Z) :
  0 <= d ->
  day (str (decimal d)) = if (1 <=? d) && (d <=? 31) then Some (d, []) else None.
Proof.
  intros Hd. rewrite <- (List.app_nil_r (str (decimal d))) at 1.
  now apply day_numeral.
Qed.

(** X8: a month name followed by a four-digit year is the first day of
    that month, at midnight: the day-of-month readings of the year token
    are refused first, the year being larger than 31. *)
Theorem month_and_year_date (clock : Moment.Date) (i : nat) (name : string)
        (y : Z) :
  nth_error Moment.monthsShort i = Some name \/
  nth_error Moment.months i = Some name ->
  1000 <= y <= 9999 ->
  parseDate clock (name ++ " " ++ decimal y)
  = Some (Moment.mkDate y (Z.of_nat i) 1 0).
Proof.
  intros Hname Hy. rewrite parseDate_eq, dateParser_eq.
  assert (str (name ++ " " ++ decimal y)
          = str name ++ " "%char :: str (decimal y)) as ->
      by now rewrite !str_app.
  destruct (month_name clock i name (str (decimal y)) Hname)
    as (Em & -> & Hi).
  assert (Mona.spaces (" "%char :: str (decimal y))
          = Some (" "%string, str (decimal y))) as Es
      by now rewrite spaces_blank, numeral_end_stops.
  assert (day (str (decimal y)) = None) as Ed.
  { rewrite day_numeral_end by lia.
    replace (y <=? 31) with false by (symmetry; apply Z.leb_gt; lia).
    now rewrite andb_false_r. }
  unfold dateAlternatives, localeDate.
  rewrite or_cons, or_miss, or_miss, or_cons.
  - rewrite (monthAndYear_reads clock _ _ _ _ _ _ _ Em Es
               (year_numeral clock y Hy)).
    reflexivity.
  - unfold monthAndDay.
    rewrite (bind_step _ _ _ _ _ Em), (bind_step _ _ _ _ _ Es).
    now apply bind_fail.
  - unfold fullDate.
    rewrite (bind_step _ _ _ _ _ Em), (bind_step _ _ _ _ _ Es).
    now apply bind_fail.
Qed.

Lemma month_and_year_date_witness :
  nth_error Moment.months 7 = Some "August"%string /\
  1000 <= 2011 <= 9999 /\
  parseDate sampleClock "August 2011" = Some (Moment.mkDate 2011 7 1 0).
Proof.
  split; [reflexivity|]. split; [lia|].
  apply (month_and_year_date sampleClock 7 "August" 2011);
    [right; reflexivity | lia].
Defined.

(** X9: a month name followed by a day that exists in that month of the
    current year is that day of the current year, at midnight. *)
Theorem month_and_day_date (clock : Moment.Date) (i : nat) (name : string)
        (d : Z) :
  nth_error Moment.monthsShort i = Some name \/
  nth_error Moment.months i = Some name ->
  1 <= d <= Moment.daysInMonth (Moment.year clock) (Z.of_nat i) ->
  parseDate clock (name ++ " " ++ decimal d)
  = Some (Moment.mkDate (Moment.year clock) (Z.of_nat i) d 0).
Proof.
  intros Hname Hd. rewrite parseDate_eq, dateParser_eq.
  assert (str (name ++ " " ++ decimal d)
          = str name ++ " "%char :: str (decimal d)) as ->
      by now rewrite !str_app.
  destruct (month_name clock i name (str (decimal d)) Hname)
    as (Em & -> & Hi).
  assert (Mona.spaces (" "%char :: str (decimal d))
          = Some (" "%string, str (decimal d))) as Es
      by now rewrite spaces_blank, numeral_end_stops.
  pose proof (daysInMonth_le (Moment.year clock) (Z.of_nat i)) as H31.
  assert (day (str (decimal d)) = Some (d, [])) as Ed.
  { rewrite day_numeral_end by lia.
    replace ((1 <=? d) && (d <=? 31)) with true; [reflexivity|].
    symmetry. apply andb_true_iff. split; apply Z.leb_le; lia. }
  unfold dateAlternatives, localeDate.
  rewrite or_cons, or_miss, or_cons.
  - unfold monthAndDay.
    rewrite (bind_step _ _ _ _ _ Em), (bind_step _ _ _ _ _ Es),
      (bind_step _ _ _ _ _ Ed).
    unfold Moment.ofArray, Moment.getYear.
    cbn [Moment.isValid Moment.toDate Moment.ofDate].
    replace ((0 <=? Z.of_nat i) && (Z.of_nat i <=? 11) && (1 <=? d)
             && (d <=? Moment.daysInMonth (Moment.year clock) (Z.of_nat i)))
      with true; [reflexivity|].
    symmetry. repeat (apply andb_true_iff; split); apply Z.leb_le; lia.
  - unfold fullDate.
    rewrite (bind_step _ _ _ _ _ Em), (bind_step _ _ _ _ _ Es),
      (bind_step _ _ _ _ _ Ed).
    reflexivity.
Qed.

Lemma month_and_day_date_witness :
  nth_error Moment.monthsShort 7 = Some "Aug"%string /\
  1 <= 19 <= Moment.daysInMonth (Moment.year sampleClock) 7 /\
  parseDate sampleClock "Aug 19" = Some (Moment.mkDate 2024 7 19 0).
Proof.
  split; [reflexivity|].
  split; [change (Moment.daysInMonth (Moment.year sampleClock) 7) with 31;
          lia|].
  apply (month_and_day_date sampleClock 7 "Aug" 19); [left; reflexivity|].
  change (Moment.daysInMonth (Moment.year sampleClock) (Z.of_nat 7)) with 31.
  lia.
Defined.

(** ** Relative dates *)

Section RelativeDates.

Variable clock : Moment.Date.

(** The count left out, or written "the": the phrase is read with the
    count 1. *)
Lemma dateParser_relative_default (c u : string) (pl : bool) (x : Stream) :
  c = ""%string \/ c = "the "%string -> In u unitWords ->
  dateParser clock (str c ++ str (plural u pl) ++ " "%char :: x)
  = match referenceDate clock (dateParser clock) (skipSpaces x) with
    | Some (reference, r) =>
        match skipSpaces r with
        | [] => Some (Moment.toDate
                        (Moment.subtract u 1 (Moment.ofDate reference)), [])
        | _ :: _ => None
        end
    | None => None
    end.
Proof.
  intros Hc Hu. rewrite dateParser_eq.
  destruct Hc as [-> | ->]; unit_cases Hu pl;
    (rewrite skipSpaces_stops by reflexivity;
     unfold dateAlternatives;
     rewrite or_miss by reflexivity;
     rewrite or_cons; unfold relativeDate;
     erewrite bind_step by reflexivity;
     erewrite bind_step by reflexivity;
     erewrite bind_step by reflexivity;
     rewrite (bind_step _ _ _ _ _ (spaces_blank x));
     unfold Mona.bind, Mona.value;
     destruct (referenceDate clock (dateParser clock) (skipSpaces x))
       as [[ref r]|]; reflexivity).
Qed.

(** X10: the count of a relative date may be left out or written "the";
    either way the phrase parses exactly as with the count 1, whatever
    follows the unit word. *)
Theorem count_defaults_to_one (u t : string) (pl : bool) :
  In u unitWords ->
  parseDate clock (plural u pl ++ " " ++ t)
  = parseDate clock ("1 " ++ plural u pl ++ " " ++ t) /\
  parseDate clock ("the " ++ plural u pl ++ " " ++ t)
  = parseDate clock ("1 " ++ plural u pl ++ " " ++ t).
Proof.
  intros Hu.
  assert (parseDate clock ("1 " ++ plural u pl ++ " " ++ t)
          = match referenceDate clock (dateParser clock) (skipSpaces (str t))
            with
            | Some (reference, r) =>
                match skipSpaces r with
                | [] => Some (Moment.toDate
                                (Moment.subtract u 1 (Moment.ofDate reference)))
                | _ :: _ => None
                end
            | None => None
            end) as ->.
  { change ("1 " ++ plural u pl ++ " " ++ t)%string
      with (decimal 1 ++ " " ++ plural u pl ++ " " ++ t)%string.
    rewrite parseDate_eq, str_phrase, dateParser_relative by (lia || easy).
    destruct (referenceDate _ _ _) as [[ref r]|]; [|reflexivity].
    now destruct (skipSpaces r). }
  split; rewrite parseDate_eq.
  - assert (str (plural u pl ++ " " ++ t)
            = str "" ++ str (plural u pl) ++ " "%char :: str t) as ->
        by now rewrite !str_app.
    rewrite dateParser_relative_default by (tauto || assumption).
    destruct (referenceDate _ _ _) as [[ref r]|]; [|reflexivity].
    now destruct (skipSpaces r).
  - assert (str ("the " ++ plural u pl ++ " " ++ t)
            = str "the " ++ str (plural u pl) ++ " "%char :: str t) as ->
        by now rewrite !str_app.
    rewrite dateParser_relative_default by (tauto || assumption).
    destruct (referenceDate _ _ _) as [[ref r]|]; [|reflexivity].
    now destruct (skipSpaces r).
Qed.

Lemma parseDate_keyword (k : string) :
  In k ["today"; "now"]%string -> parseDate clock k = Some (today clock).
Proof. intros [<- | [<- | []]]; reflexivity. Qed.

(** X11: "ago" stands for "from today": for every count and unit,
    "N u ago" gives the same date as "N u from today", "N u before now"
    and the like. *)
Theorem ago_is_from_today (n : Z) (u p k : string) (pl : bool) :
  0 <= n -> In u unitWords -> In p prepositions ->
  In k ["today"; "now"]%string ->
  parseDate clock (decimal n ++ " " ++ plural u pl ++ " " ++ p ++ " " ++ k)
  = parseDate clock (decimal n ++ " " ++ plural u pl ++ " ago").
Proof.
  intros Hn Hu Hp Hk.
  rewrite parseDate_preposition, parseDate_ago, parseDate_keyword
    by assumption.
  reflexivity.
Qed.

Lemma startOfDay_prevDay (d : Moment.Date) :
  Moment.toDate (Moment.startOfDay
                   (Moment.subtract "day" 1 (Moment.ofDate d)))
  = Moment.toDate (Moment.subtract "day" 1
                     (Moment.startOfDay (Moment.ofDate d))).
Proof.
  destruct d as [y m dd ms]. cbn. unfold Moment.prevDay. cbn.
  destruct (1 <? dd); [reflexivity|]. now destruct (0 <? m).
Qed.

(** X12: "yesterday" is "1 day ago". *)
Theorem yesterday_is_one_day_ago :
  parseDate clock "yesterday" = parseDate clock "1 day ago" /\
  parseDate clock "yesterday"
  = Some (Moment.toDate
            (Moment.subtract "day" 1 (Moment.startOfDay (Moment.ofDate clock)))).
Proof.
  assert (parseDate clock "yesterday"
          = Some (Moment.toDate
                    (Moment.startOfDay
                       (Moment.subtract "day" 1 (Moment.ofDate clock)))))
    as E by (cbv -[Moment.subtract Moment.startOfDay Moment.ofDate
                   Moment.toDate]; reflexivity).
  rewrite E, startOfDay_prevDay. split; [|reflexivity].
  change "1 day ago"%string
    with (decimal 1 ++ " " ++ plural "day" false ++ " ago")%string.
  rewrite parseDate_ago by (lia || (left; reflexivity)). reflexivity.
Qed.

(** X13: relative phrases nest, the innermost reference being resolved
    first: the date of "N1 u1 p1 N2 u2 p2 R" is the date of R minus N2
    units u2, minus N1 units u1, and the phrase is no date when R is
    none. *)
Theorem relative_phrases_compose (n1 n2 : Z) (u1 u2 p1 p2 R : string)
        (pl1 pl2 : bool) :
  0 <= n1 -> 0 <= n2 -> In u1 unitWords -> In u2 unitWords ->
  In p1 prepositions -> In p2 prepositions ->
  parseDate clock
    (decimal n1 ++ " " ++ plural u1 pl1 ++ " " ++ p1 ++ " "
       ++ decimal n2 ++ " " ++ plural u2 pl2 ++ " " ++ p2 ++ " " ++ R)
  = match parseDate clock R with
    | Some reference =>
        Some (Moment.toDate
                (Moment.subtract u1 n1
                   (Moment.ofDate
                      (Moment.toDate
                         (Moment.subtract u2 n2 (Moment.ofDate reference))))))
    | None => None
    end.
Proof.
  intros. rewrite !parseDate_preposition by assumption.
  now destruct (parseDate clock R).
Qed.

(** X14: a relative phrase is a date exactly when its reference clause
    is one. *)
Theorem relative_phrase_needs_reference (n : Z) (u p R : string) (pl : bool) :
  0 <= n -> In u unitWords -> In p prepositions ->
  (parseDate clock (decimal n ++ " " ++ plural u pl ++ " " ++ p ++ " " ++ R)
   = None <-> parseDate clock R = None).
Proof.
  intros. rewrite parseDate_preposition by assumption.
  destruct (parseDate clock R); split; congruence.
Qed.

(** X17: the plural s of the unit word is optional and changes nothing,
    before "ago" and before every preposition. *)
Theorem plural_changes_nothing (n : Z) (u p R : string) :
  0 <= n -> In u unitWords -> In p prepositions ->
  parseDate clock (decimal n ++ " " ++ plural u true ++ " ago")
  = parseDate clock (decimal n ++ " " ++ plural u false ++ " ago") /\
  parseDate clock (decimal n ++ " " ++ plural u true ++ " " ++ p ++ " " ++ R)
  = parseDate clock (decimal n ++ " " ++ plural u false ++ " " ++ p ++ " " ++ R).
Proof.
  intros. now rewrite !parseDate_ago, !parseDate_preposition by assumption.
Qed.

(** X15: the recursion of the reference clause is bounded by the length
    of the input: any allowance of nested calls above that length gives
    the result of [parseDate]. *)
Theorem reference_nesting_bounded (n : nat) (s : string) :
  (String.length s < n)%nat ->
  Mona.parse (englishDateParser clock n) s = parseDate clock s.
Proof.
  intros H. unfold parseDate, Mona.parse.
  rewrite englishDateParser_fuel; [reflexivity|].
  now rewrite str_length.
Qed.

End RelativeDates.

(** ** The clock *)

Lemma bind_ext {A B} (p1 p2 : Mona.Parser A) (k1 k2 : A -> Mona.Parser B) s :
  p1 s = p2 s -> (forall a r, k1 a r = k2 a r) ->
  Mona.bind p1 k1 s = Mona.bind p2 k2 s.
Proof.
  intros Hp Hk. unfold Mona.bind. rewrite Hp.
  destruct (p2 s) as [[a r]|]; [apply Hk | reflexivity].
Qed.

Section SameDay.

Variables (y m d ms1 ms2 : Z).


Lemma firstFormat_same_day unit text formats s :
  firstFormat (Moment.mkDate y m d ms1) unit text formats s
  = firstFormat (Moment.mkDate y m d ms2) unit text formats s.
Proof.
  induction formats as [|f fs IH]; [reflexivity|].
  cbn [firstFormat].
  destruct f; unfold Moment.ofString;
    [ destruct (Moment.findWord text) as [w|];
      [destruct (Moment.monthsParse w)|]
    | destruct (Moment.findDigits 2 text)
    | destruct (Moment.findDigits 4 text) ];
    cbn [Moment.isValid Moment.invalid];
    try reflexivity; try exact IH.
  destruct (_ && _); [reflexivity | exact IH].
Qed.

Lemma month_same_day s : month (Moment.mkDate y m d ms1) s = month (Moment.mkDate y m d ms2) s.
Proof.
  unfold month, momentParser, Mona.label.
  apply bind_ext; [reflexivity|]. intros t r. apply firstFormat_same_day.
Qed.

Lemma year_same_day s : year (Moment.mkDate y m d ms1) s = year (Moment.mkDate y m d ms2) s.
Proof.
  unfold year, momentParser, Mona.label.
  apply bind_ext; [reflexivity|]. intros t r. apply firstFormat_same_day.
Qed.

Lemma localeDate_same_day s : localeDate (Moment.mkDate y m d ms1) s = localeDate (Moment.mkDate y m d ms2) s.
Proof.
  unfold localeDate. rewrite !or_cons.
  assert (fullDate (Moment.mkDate y m d ms1) s = fullDate (Moment.mkDate y m d ms2) s) as ->.
  { unfold fullDate. apply bind_ext; [apply month_same_day|]. intros mo r.
    repeat (apply bind_ext; [reflexivity|]; intros ? ?).
    apply bind_ext; [apply year_same_day|]. reflexivity. }
  assert (monthAndDay (Moment.mkDate y m d ms1) s = monthAndDay (Moment.mkDate y m d ms2) s) as ->.
  { unfold monthAndDay. apply bind_ext; [apply month_same_day|]. reflexivity. }
  assert (monthAndYear (Moment.mkDate y m d ms1) s = monthAndYear (Moment.mkDate y m d ms2) s) as ->.
  { unfold monthAndYear. apply bind_ext; [apply month_same_day|]. intros mo r.
    apply bind_ext; [reflexivity|]. intros ? ?.
    apply bind_ext; [apply year_same_day|]. reflexivity. }
  reflexivity.
Qed.

Lemma yesterday_same_day s : yesterday (Moment.mkDate y m d ms1) s = yesterday (Moment.mkDate y m d ms2) s.
Proof.
  unfold yesterday, Mona.and_. apply bind_ext; [reflexivity|]. intros _ r.
  cbn. unfold Moment.prevDay. cbn.
  destruct (1 <? d); [reflexivity|]. now destruct (0 <? m).
Qed.

Lemma relativeDate_same_day (rec1 rec2 : Mona.Parser Moment.Date) s :
  (forall r, rec1 r = rec2 r) ->
  relativeDate (Moment.mkDate y m d ms1) rec1 s = relativeDate (Moment.mkDate y m d ms2) rec2 s.
Proof.
  intros Hrec. unfold relativeDate.
  repeat (apply bind_ext; [reflexivity|]; intros ? ?).
  apply bind_ext; [|reflexivity].
  unfold referenceDate. rewrite !or_cons.
  change (today (Moment.mkDate y m d ms2)) with (today (Moment.mkDate y m d ms1)).
  destruct (Mona.and_ (Mona.string "ago") (Mona.value (today (Moment.mkDate y m d ms1))) r2);
    [reflexivity|].
  assert (forall x, Mona.and_ (Mona.or [Mona.string "from";
                                         Mona.string "before";
                                         Mona.string "until"])
                              (Mona.and_ Mona.spaces rec1) x
                    = Mona.and_ (Mona.or [Mona.string "from";
                                          Mona.string "before";
                                          Mona.string "until"])
                                (Mona.and_ Mona.spaces rec2) x) as ->;
    [|reflexivity].
  intros x. unfold Mona.and_.
  apply bind_ext; [reflexivity|]. intros ? ?.
  apply bind_ext; [reflexivity|]. intros ? ?. apply Hrec.
Qed.

Lemma englishDateParser_same_day (n : nat) (s : Stream) :
  englishDateParser (Moment.mkDate y m d ms1) n s = englishDateParser (Moment.mkDate y m d ms2) n s.
Proof.
  revert s. induction n as [|n IH]; intros s; [reflexivity|].
  cbn [englishDateParser]. unfold Mona.followedBy, Mona.and_.
  apply bind_ext; [|reflexivity].
  apply bind_ext; [|reflexivity].
  apply bind_ext; [reflexivity|]. intros w r.
  unfold dateAlternatives. rewrite !or_cons.
  rewrite localeDate_same_day, (relativeDate_same_day _ _ r IH),
    yesterday_same_day.
  reflexivity.
Qed.

End SameDay.

(** X16: the time of day of the clock never matters: two clock readings
    on the same calendar day give the same answer on every input. *)
Theorem time_of_day_irrelevant (c1 c2 : Moment.Date) (s : string) :
  Moment.year c1 = Moment.year c2 ->
  Moment.month c1 = Moment.month c2 ->
  Moment.date c1 = Moment.date c2 ->
  parseDate c1 s = parseDate c2 s.
Proof.
  destruct c1 as [y1 m1 d1 ms1], c2 as [y2 m2 d2 ms2]. cbn.
  intros -> -> ->. rewrite !parseDate_eq. unfold dateParser.
  now rewrite englishDateParser_same_day with (ms2 := ms2).
Qed.

Lemma time_of_day_irrelevant_witness :
  parseDate sampleClock "3 days before yesterday"
  = parseDate (Moment.mkDate 2024 2 15 0) "3 days before yesterday".
Proof.
  apply (time_of_day_irrelevant sampleClock (Moment.mkDate 2024 2 15 0));
    reflexivity.
Defined.

(** ** Sample readings of the relative-date theorems *)

Lemma plural_changes_nothing_witness :
  0 <= 2 /\ In "week"%string unitWords /\ In "until"%string prepositions /\
  parseDate sampleClock "2 weeks ago" = parseDate sampleClock "2 week ago" /\
  parseDate sampleClock "2 weeks until Aug 30"
  = parseDate sampleClock "2 week until Aug 30".
Proof.
  split; [lia|]. split; [right; left; reflexivity|].
  split; [right; right; left; reflexivity|].
  apply (plural_changes_nothing sampleClock 2 "week" "until" "Aug 30");
    [lia | right; left; reflexivity | right; right; left; reflexivity].
Defined.

Lemma count_defaults_to_one_witness :
  In "week"%string unitWords /\
  parseDate sampleClock "week ago" = parseDate sampleClock "1 week ago" /\
  parseDate sampleClock "the week ago" = parseDate sampleClock "1 week ago".
Proof.
  split; [right; left; reflexivity|].
  apply (count_defaults_to_one sampleClock "week" "ago" false).
  right; left; reflexivity.
Defined.

Lemma ago_is_from_today_witness :
  0 <= 5 /\ In "week"%string unitWords /\ In "from"%string prepositions /\
  In "now"%string ["today"; "now"]%string /\
  parseDate sampleClock "5 weeks from now"
  = parseDate sampleClock "5 weeks ago".
Proof.
  split; [lia|]. split; [right; left; reflexivity|].
  split; [left; reflexivity|]. split; [right; left; reflexivity|].
  apply (ago_is_from_today sampleClock 5 "week" "from" "now" true);
    [lia | right; left; reflexivity | left; reflexivity
     | right; left; reflexivity].
Defined.

Lemma relative_phrases_compose_witness :
  0 <= 1 /\ 0 <= 2 /\ In "month"%string unitWords /\
  In "day"%string unitWords /\ In "from"%string prepositions /\
  parseDate sampleClock "1 month from 2 days from today"
  = Some (Moment.mkDate 2024 1 13 0).
Proof.
  split; [lia|]. split; [lia|]. split; [right; right; left; reflexivity|].
  split; [left; reflexivity|]. split; [left; reflexivity|].
  apply (relative_phrases_compose sampleClock 1 2 "month" "day" "from" "from"
           "today" false true);
    [lia | lia | right; right; left; reflexivity | left; reflexivity
     | left; reflexivity | left; reflexivity].
Defined.

Lemma relative_phrase_needs_reference_witness :
  0 <= 3 /\ In "day"%string unitWords /\ In "before"%string prepositions /\
  parseDate sampleClock "tomorrow" = None /\
  parseDate sampleClock "3 days before tomorrow" = None.
Proof.
  split; [lia|]. split; [left; reflexivity|].
  split; [right; left; reflexivity|]. split; [vm_compute; reflexivity|].
  apply (relative_phrase_needs_reference sampleClock 3 "day" "before"
           "tomorrow" true);
    [lia | left; reflexivity | right; left; reflexivity
     | vm_compute; reflexivity].
Defined.

Lemma reference_nesting_bounded_witness :
  (String.length "1 day ago" < 40)%nat /\
  Mona.parse (englishDateParser sampleClock 40) "1 day ago"
  = parseDate sampleClock "1 day ago".
Proof.
  split; [cbn; lia|].
  apply (reference_nesting_bounded sampleClock 40 "1 day ago"). cbn. lia.
Defined.
